(** * Query-parameter normalisation and list-filter construction

    A shallow embedding of the query pipeline of the shop backend:
    [utils/parseQueryParams] (single-value extraction, scalar parsers,
    search sanitiser, limit normaliser, the two parameter-set
    normalisers), the [sanitizeObject] helper of the customer
    controllers, and the filter builders of [getOrders] and of the two
    [getCustomers] variants.

    Conventions of the embedding

    - a JavaScript string is the list of its UTF-16 code units;
    - a JavaScript number is [NaN], an infinity, or a finite binary64
      value kept as the rational it denotes (negative zero is identified
      with zero: no operation used here tells them apart);
    - a function that may [throw] returns a [result];
    - built-ins of the language ([trim], [Number], [parseInt],
      [RegExp.prototype.test], [String.prototype.replace],
      [Date.prototype.setHours]) follow ECMA-262. *)

From Stdlib Require Import ZArith NArith QArith Qreduction List String Ascii Bool Lia.
Import ListNotations.

Local Open Scope Z_scope.

(* ================================================================== *)
(** ** Strings *)

Definition char := N.
Definition jsstring := list char.

Definition ch (a : ascii) : char := N_of_ascii a.

(** An ASCII literal as a JavaScript string. *)
Definition js (s : string) : jsstring := map N_of_ascii (list_ascii_of_string s).

Definition char_in (lo hi c : N) : bool := (N.leb lo c && N.leb c hi)%bool.

Definition is_digit (c : char) : bool := char_in (ch "0") (ch "9") c.
Definition is_lower (c : char) : bool := char_in (ch "a") (ch "z") c.
Definition is_upper (c : char) : bool := char_in (ch "A") (ch "Z") c.

(** [\w] of a regular expression without the [u] and [i] flags. *)
Definition is_word (c : char) : bool :=
  (is_lower c || is_upper c || is_digit c || N.eqb c (ch "_"))%bool.

(** WhiteSpace and LineTerminator code units: what [trim] strips, what
    [\s] matches and what [Number] skips around a literal. *)
Definition is_space (c : char) : bool :=
  (char_in 9 13 c            (* TAB LF VT FF CR *)
   || N.eqb c 32             (* SP *)
   || N.eqb c 160            (* NBSP *)
   || N.eqb c 5760           (* U+1680 *)
   || char_in 8192 8202 c    (* U+2000 .. U+200A *)
   || char_in 8232 8233 c    (* LS PS *)
   || N.eqb c 8239           (* U+202F *)
   || N.eqb c 8287           (* U+205F *)
   || N.eqb c 12288          (* U+3000 *)
   || N.eqb c 65279)%bool.   (* U+FEFF *)

Fixpoint dropwhile {A} (p : A -> bool) (l : list A) : list A :=
  match l with
  | [] => []
  | x :: r => if p x then dropwhile p r else l
  end.

Fixpoint takewhile {A} (p : A -> bool) (l : list A) : list A :=
  match l with
  | [] => []
  | x :: r => if p x then x :: takewhile p r else []
  end.

Definition trimStart (s : jsstring) : jsstring := dropwhile is_space s.
Definition trimEnd (s : jsstring) : jsstring := rev (dropwhile is_space (rev s)).
Definition trim (s : jsstring) : jsstring := trimEnd (trimStart s).

Definition jsstring_eqb (a b : jsstring) : bool :=
  if list_eq_dec N.eq_dec a b then true else false.

(** [!value] for a value of type [string | undefined]. *)
Definition falsy (value : option jsstring) : bool :=
  match value with
  | None => true
  | Some [] => true
  | Some (_ :: _) => false
  end.

(* ================================================================== *)
(** ** Errors *)

(** The texts of the thrown errors, by the place that throws them; a
    template literal keeps the raw value it interpolates. *)
Inductive message :=
| MsgNotArray                        (* the parameter must not be an array *)
| MsgPositiveInt (raw : jsstring)    (* must be a positive integer: ${value} *)
| MsgNonNegative (raw : jsstring)    (* must be a non-negative number: ${value} *)
| MsgDate (raw : jsstring)           (* must be a valid date: ${value} *)
| MsgSortOrder                       (* sortOrder must be asc or desc *)
| MsgSearchChars                     (* the search query has forbidden characters *)
| MsgStatus                          (* invalid status parameter *)
| MsgOrderSearch                     (* invalid search query *)
| MsgCustomerSearch.                 (* inadmissible search parameter *)

Inductive error :=
| BadRequestError (m : message)
| NotFoundError (m : message).

Inductive result (A : Type) :=
| Ok (a : A)
| Throw (e : error).
Arguments Ok {A} a.
Arguments Throw {A} e.

Definition bind {A B} (r : result A) (k : A -> result B) : result B :=
  match r with
  | Ok a => k a
  | Throw e => Throw e
  end.

Notation "x <- r ;; k" := (bind r (fun x => k))
  (at level 61, r at next level, right associativity).

(** The conditions the specification names. *)
Definition InvalidParameterShape : error := BadRequestError MsgNotArray.
Definition InvalidSearchTerm : error := BadRequestError MsgSearchChars.
Definition InvalidParameter (m : message) : Prop :=
  match m with
  | MsgPositiveInt _ | MsgNonNegative _ | MsgDate _ | MsgSortOrder => True
  | _ => False
  end.

(* ================================================================== *)
(** ** Numbers *)

(** A binary64 value: a finite one is the rational it denotes, kept in
    lowest terms. *)
Inductive number :=
| NaN
| Infinity (negative : bool)
| Fin (q : Q).

(** [2 ^ e] for [0 <= e], and [1] below. *)
Definition two (e : Z) : Z := 2 ^ Z.max 0 e.

(** Nearest integer to [n / d], ties to even ([0 < d]). *)
Definition round_half_even (n d : Z) : Z :=
  let q := n / d in
  let r := n mod d in
  if 2 * r <? d then q
  else if d <? 2 * r then q + 1
  else if Z.even q then q else q + 1.

(** [floor (log2 (n / d))] for positive [n] and [d]. *)
Definition floor_log2 (n d : Z) : Z :=
  let e0 := Z.log2 n - Z.log2 d in
  if d * two e0 <=? n * two (- e0) then e0 else e0 - 1.

(** Rounding of the positive rational [n / d] to binary64, to nearest,
    ties to even: 53 significant bits, least exponent -1074, overflow
    to infinity from 2^1024 on. *)
Definition round_pos (n d : Z) : number :=
  let E := Z.max (floor_log2 n d - 52) (-1074) in
  let m := round_half_even (n * two (- E)) (d * two E) in
  if 0 <=? E then
    if two 1024 <=? m * two E then Infinity false
    else Fin (m * two E # 1)
  else Fin (Qred (m # Z.to_pos (two (- E)))).

Definition num_neg (x : number) : number :=
  match x with
  | NaN => NaN
  | Infinity s => Infinity (negb s)
  | Fin q => Fin (Qred (- q))
  end.

Definition round64 (q : Q) : number :=
  match Qnum q with
  | Z0 => Fin 0
  | Zpos n => round_pos (Zpos n) (Zpos (Qden q))
  | Zneg n => num_neg (round_pos (Zpos n) (Zpos (Qden q)))
  end.

Definition of_Z (z : Z) : number := Fin (z # 1).

Definition isNaN (x : number) : bool :=
  match x with NaN => true | _ => false end.

Definition isFinite (x : number) : bool :=
  match x with Fin _ => true | _ => false end.

Definition isInteger (x : number) : bool :=
  match x with
  | Fin q => Pos.eqb (Qden (Qred q)) 1
  | _ => false
  end.

(** [x <= y] and [x < y]; false as soon as one side is [NaN]. *)
Definition num_leb (x y : number) : bool :=
  match x, y with
  | NaN, _ | _, NaN => false
  | Infinity true, _ => true
  | _, Infinity false => true
  | Infinity false, _ => false
  | _, Infinity true => false
  | Fin a, Fin b => Qle_bool a b
  end.

Definition num_ltb (x y : number) : bool :=
  match x, y with
  | NaN, _ | _, NaN => false
  | _, _ => negb (num_leb y x)
  end.

Definition Math_min (x y : number) : number :=
  match x, y with
  | NaN, _ | _, NaN => NaN
  | _, _ => if num_leb x y then x else y
  end.

Definition num_sign (x : number) : Z :=
  match x with
  | NaN => 0
  | Infinity s => if s then -1 else 1
  | Fin q => Z.sgn (Qnum q)
  end.

Definition num_sub (x y : number) : number :=
  match x, y with
  | NaN, _ | _, NaN => NaN
  | Infinity a, Infinity b => if Bool.eqb a b then NaN else Infinity a
  | Infinity a, Fin _ => Infinity a
  | Fin _, Infinity b => Infinity (negb b)
  | Fin a, Fin b => round64 (Qred (a - b))
  end.

Definition num_mul (x y : number) : number :=
  match x, y with
  | NaN, _ | _, NaN => NaN
  | Fin a, Fin b => round64 (Qred (a * b))
  | _, _ =>
      match num_sign x * num_sign y with
      | Z0 => NaN
      | Zpos _ => Infinity false
      | Zneg _ => Infinity true
      end
  end.

(* ================================================================== *)
(** ** Numeric literals: [Number(string)] and [parseInt(string, 10)] *)

Definition char_is (a : ascii) (c : char) : bool := N.eqb c (ch a).

Definition digit_value (c : char) : option Z :=
  if is_digit c then Some (Z.of_N c - 48)
  else if char_in (ch "a") (ch "f") c then Some (Z.of_N c - 87)
  else if char_in (ch "A") (ch "F") c then Some (Z.of_N c - 55)
  else None.

Definition radix_digit (R : Z) (c : char) : bool :=
  match digit_value c with
  | Some v => v <? R
  | None => false
  end.

(** The integer a run of digits denotes in radix [R]. *)
Definition digits_value (R : Z) (l : jsstring) : Z :=
  fold_left (fun acc c => acc * R + match digit_value c with Some v => v | None => 0 end) l 0.

Definition nonempty {A} (l : list A) : bool :=
  match l with [] => false | _ :: _ => true end.

Definition all_digits (R : Z) (l : jsstring) : bool :=
  (nonempty l && forallb (radix_digit R) l)%bool.

(** [m * 10 ^ x] as a rational. *)
Definition decimal_value (m x : Z) : Q :=
  if 0 <=? x then m * 10 ^ x # 1 else m # Z.to_pos (10 ^ (- x)).

(** NonDecimalIntegerLiteral: [0x], [0o] and [0b] literals carry no
    sign.  [None] when the text does not start as one. *)
Definition NonDecimalIntegerLiteral (t : jsstring) : option number :=
  match t with
  | z :: p :: r =>
      if char_is "0" z then
        let radix :=
          if (char_is "x" p || char_is "X" p)%bool then Some 16
          else if (char_is "o" p || char_is "O" p)%bool then Some 8
          else if (char_is "b" p || char_is "B" p)%bool then Some 2
          else None in
        match radix with
        | Some R => Some (if all_digits R r then round64 (digits_value R r # 1) else NaN)
        | None => None
        end
      else None
  | _ => None
  end.

(** ExponentPart, possibly empty: the exponent, or [None] when what is
    left of the text is not an exponent. *)
Definition ExponentPart (r : jsstring) : option Z :=
  match r with
  | [] => Some 0
  | e :: r1 =>
      if (char_is "e" e || char_is "E" e)%bool then
        match r1 with
        | c :: r2 =>
            if char_is "+" c then
              if all_digits 10 r2 then Some (digits_value 10 r2) else None
            else if char_is "-" c then
              if all_digits 10 r2 then Some (- digits_value 10 r2) else None
            else if all_digits 10 r1 then Some (digits_value 10 r1) else None
        | [] => None
        end
      else None
  end.

(** StrUnsignedDecimalLiteral: [Infinity], [d+.d*e?], [.d+e?], [d+e?]. *)
Definition StrUnsignedDecimalLiteral (r : jsstring) : number :=
  if jsstring_eqb r (js "Infinity") then Infinity false
  else
    let ip := takewhile is_digit r in
    let r1 := dropwhile is_digit r in
    let '(fp, r2) :=
      match r1 with
      | c :: r' =>
          if char_is "." c then (takewhile is_digit r', dropwhile is_digit r')
          else ([], r1)
      | [] => ([], r1)
      end in
    if (nonempty ip || nonempty fp)%bool then
      match ExponentPart r2 with
      | Some x =>
          round64 (decimal_value (digits_value 10 (ip ++ fp)) (x - Z.of_nat (List.length fp)))
      | None => NaN
      end
    else NaN.

Definition StrDecimalLiteral (t : jsstring) : number :=
  match t with
  | c :: r =>
      if char_is "+" c then StrUnsignedDecimalLiteral r
      else if char_is "-" c then num_neg (StrUnsignedDecimalLiteral r)
      else StrUnsignedDecimalLiteral t
  | [] => NaN
  end.

(** [Number(s)] for a string [s] (StringToNumber): white space around
    the literal is skipped, the empty text is [0], any other text that
    is not a numeric literal is [NaN]; the value is the literal's exact
    value rounded to binary64 (past 20 significant digits ECMA-262 lets
    a host round an approximation instead; the engines in use round the
    exact value). *)
Definition StringToNumber (s : jsstring) : number :=
  match trim s with
  | [] => Fin 0
  | t =>
      match NonDecimalIntegerLiteral t with
      | Some x => x
      | None => StrDecimalLiteral t
      end
  end.

(** [parseInt(s, 10)]: leading white space and one sign are skipped,
    then the longest run of decimal digits is read; [NaN] when that run
    is empty. *)
Definition parseInt (s : jsstring) : number :=
  let S := trimStart s in
  let '(neg, S1) :=
    match S with
    | c :: r =>
        if char_is "-" c then (true, r)
        else if char_is "+" c then (false, r)
        else (false, S)
    | [] => (false, S)
    end in
  let Z := takewhile is_digit S1 in
  if nonempty Z then
    let n := round64 (digits_value 10 Z # 1) in
    if neg then num_neg n else n
  else NaN.

(* ================================================================== *)
(** ** Dates *)

(** A [Date] object: its time value, in milliseconds since the epoch,
    or the invalid date (time value [NaN]). *)
Inductive Date :=
| InvalidDate
| TimeValue (t : Z).

Definition msPerDay : Z := 86400000.
Definition Day (t : Z) : Z := t / msPerDay.
Definition TimeWithinDay (t : Z) : Z := t mod msPerDay.
Definition MakeTime (h m s ms : Z) : Z := h * 3600000 + m * 60000 + s * 1000 + ms.
Definition MakeDate (day time : Z) : Z := day * msPerDay + time.
Definition TimeClip (t : Z) : Date :=
  if 8640000000000000 <? Z.abs t then InvalidDate else TimeValue t.

Section LocalTime.
(** The offset of local time, in milliseconds: [LocalTZA t true] at
    the UTC instant [t], [LocalTZA t false] at the local time [t]. *)
Variable LocalTZA : Z -> bool -> Z.

Definition LocalTime (t : Z) : Z := t + LocalTZA t true.
Definition UTC (t : Z) : Z := t - LocalTZA t false.

(** [d.setHours(h, m, s, ms)], as the new state of [d]. *)
Definition setHours (d : Date) (h m s ms : Z) : Date :=
  match d with
  | InvalidDate => InvalidDate
  | TimeValue t =>
      TimeClip (UTC (MakeDate (Day (LocalTime t)) (MakeTime h m s ms)))
  end.

(** Milliseconds since local midnight, as [getHours], [getMinutes],
    [getSeconds] and [getMilliseconds] read them. *)
Definition local_time_of_day (d : Date) : option Z :=
  match d with
  | InvalidDate => None
  | TimeValue t => Some (TimeWithinDay (LocalTime t))
  end.
End LocalTime.

(** 23:59:59.999 *)
Definition end_of_day : Z := MakeTime 23 59 59 999.

(* ================================================================== *)
(** ** utils/parseQueryParams *)

Module ParseQueryParams.

(** [string | string[] | undefined]: a field of the raw query bag. *)
Inductive RawFieldValue :=
| Absent
| Single (s : jsstring)
| Multiple (l : list jsstring).

Definition of_string (v : option jsstring) : RawFieldValue :=
  match v with
  | None => Absent
  | Some s => Single s
  end.

Inductive SortOrder := asc | desc.

Record OrderQueryParams := {
  oq_page : RawFieldValue;
  oq_limit : RawFieldValue;
  oq_sortField : RawFieldValue;
  oq_sortOrder : RawFieldValue;
  oq_status : RawFieldValue;
  oq_totalAmountFrom : RawFieldValue;
  oq_totalAmountTo : RawFieldValue;
  oq_orderDateFrom : RawFieldValue;
  oq_orderDateTo : RawFieldValue;
  oq_search : RawFieldValue
}.

Record NormalizedOrderParams := {
  no_page : number;
  no_limit : number;
  no_sortField : jsstring;
  no_sortOrder : SortOrder;
  no_status : option jsstring;
  no_totalAmountFrom : option number;
  no_totalAmountTo : option number;
  no_orderDateFrom : option Date;
  no_orderDateTo : option Date;
  no_search : option jsstring
}.

Record CustomerQueryParams := {
  cq_page : RawFieldValue;
  cq_limit : RawFieldValue;
  cq_sortField : RawFieldValue;
  cq_sortOrder : RawFieldValue;
  cq_registrationDateFrom : RawFieldValue;
  cq_registrationDateTo : RawFieldValue;
  cq_lastOrderDateFrom : RawFieldValue;
  cq_lastOrderDateTo : RawFieldValue;
  cq_totalAmountFrom : RawFieldValue;
  cq_totalAmountTo : RawFieldValue;
  cq_orderCountFrom : RawFieldValue;
  cq_orderCountTo : RawFieldValue;
  cq_search : RawFieldValue
}.

Record NormalizedCustomerParams := {
  nc_page : number;
  nc_limit : number;
  nc_sortField : jsstring;
  nc_sortOrder : SortOrder;
  nc_registrationDateFrom : option Date;
  nc_registrationDateTo : option Date;
  nc_lastOrderDateFrom : option Date;
  nc_lastOrderDateTo : option Date;
  nc_totalAmountFrom : option number;
  nc_totalAmountTo : option number;
  nc_orderCountFrom : option number;
  nc_orderCountTo : option number;
  nc_search : option jsstring
}.

Definition getSingleString (value : RawFieldValue) : result (option jsstring) :=
  match value with
  | Multiple l =>
      match l with
      | [] => Ok None
      | [s] => Ok (Some s)
      | _ :: _ :: _ => Throw (BadRequestError MsgNotArray)
      end
  | Single s => Ok (Some s)
  | Absent => Ok None
  end.

Definition parsePositiveInt (value : option jsstring) (defaultValue : option number)
  : result (option number) :=
  match value with
  | Some ((_ :: _) as v) =>
      let n := StringToNumber v in
      if (negb (isInteger n) || num_leb n (Fin 0))%bool
      then Throw (BadRequestError (MsgPositiveInt v))
      else Ok (Some n)
  | _ => Ok defaultValue
  end.

Definition parseNonNegativeNumber (value : option jsstring) : result (option number) :=
  match value with
  | Some ((_ :: _) as v) =>
      let n := StringToNumber v in
      if (negb (isFinite n) || num_ltb n (Fin 0))%bool
      then Throw (BadRequestError (MsgNonNegative v))
      else Ok (Some n)
  | _ => Ok None
  end.

Definition parseSortOrder (value : option jsstring) (defaultValue : SortOrder)
  : result SortOrder :=
  match value with
  | Some ((_ :: _) as v) =>
      if jsstring_eqb v (js "asc") then Ok asc
      else if jsstring_eqb v (js "desc") then Ok desc
      else Throw (BadRequestError MsgSortOrder)
  | _ => Ok defaultValue
  end.

(** The pattern [/[.*+?^${}()|[\]\\]/]. *)
Definition regex_meta (c : char) : bool :=
  (char_is "." c || char_is "*" c || char_is "+" c || char_is "?" c
   || char_is "^" c || char_is "$" c || char_is "{" c || char_is "}" c
   || char_is "(" c || char_is ")" c || char_is "|" c || char_is "[" c
   || char_is "]" c || char_is "\" c)%bool.

(** [s.replace(/[.*+?^${}()|[\]\\]/g, '\\$&')] *)
Definition escape_meta (s : jsstring) : jsstring :=
  flat_map (fun c => if regex_meta c then [ch "\"; c] else [c]) s.

(** The class [[a-zA-Z0-9\s\-_.+%]]. *)
Definition allowed_char (c : char) : bool :=
  (is_lower c || is_upper c || is_digit c || is_space c
   || char_is "-" c || char_is "_" c || char_is "." c
   || char_is "+" c || char_is "%" c)%bool.

(** [/^[a-zA-Z0-9\s\-_.+%]+$/.test(s)] *)
Definition allowed_test (s : jsstring) : bool :=
  (nonempty s && forallb allowed_char s)%bool.

Definition sanitizeSearch (value : option jsstring) : result (option jsstring) :=
  match value with
  | Some ((_ :: _) as v) =>
      let trimmed := trim v in
      if Nat.eqb (List.length trimmed) 0 then Ok None
      else if negb (allowed_test trimmed)
      then Throw (BadRequestError MsgSearchChars)
      else Ok (Some (escape_meta trimmed))
  | _ => Ok None
  end.

(** The text [normalizeLimit] reads: the string itself, the first
    element of an array (the empty string when it has none), the empty
    string otherwise. *)
Definition limitStr (limitQuery : RawFieldValue) : jsstring :=
  match limitQuery with
  | Single s => s
  | Multiple l => match l with s :: _ => s | [] => [] end
  | Absent => []
  end.

Definition normalizeLimit (limitQuery : RawFieldValue) (defaultLim : number) : number :=
  let limitNum := parseInt (limitStr limitQuery) in
  if (isNaN limitNum || num_leb limitNum (Fin 0))%bool then defaultLim
  else Math_min limitNum defaultLim.

(** The [!] after [parsePositiveInt(..., 1)]: no run-time effect; with
    a default given the value is never [undefined]. *)
Definition non_null (v : option number) : number :=
  match v with
  | Some n => n
  | None => NaN
  end.

Definition or_default (v : option jsstring) (d : jsstring) : jsstring :=
  match v with
  | Some s => s
  | None => d
  end.

Section WithDateParse.
(** [new Date(s)] for a string [s]: the parse of date texts is left
    to the host beyond the ISO format, so it stays a parameter. *)
Variable Date_parse : jsstring -> Date.

Definition parseDate (value : option jsstring) : result (option Date) :=
  match value with
  | Some ((_ :: _) as v) =>
      match Date_parse v with
      | InvalidDate => Throw (BadRequestError (MsgDate v))
      | d => Ok (Some d)
      end
  | _ => Ok None
  end.

(** The properties of the object literal are evaluated in order; the
    first failing one throws. *)
Definition normalizeOrderQueryParams (query : OrderQueryParams) (defaultLimit : number)
  : result NormalizedOrderParams :=
  page <- (v <- getSingleString (oq_page query) ;; parsePositiveInt v (Some (Fin 1))) ;;
  limit <- (v <- getSingleString (oq_limit query) ;;
            Ok (normalizeLimit (of_string v) defaultLimit)) ;;
  sortField <- getSingleString (oq_sortField query) ;;
  sortOrder <- (v <- getSingleString (oq_sortOrder query) ;; parseSortOrder v desc) ;;
  status <- getSingleString (oq_status query) ;;
  totalAmountFrom <- (v <- getSingleString (oq_totalAmountFrom query) ;;
                      parseNonNegativeNumber v) ;;
  totalAmountTo <- (v <- getSingleString (oq_totalAmountTo query) ;;
                    parseNonNegativeNumber v) ;;
  orderDateFrom <- (v <- getSingleString (oq_orderDateFrom query) ;; parseDate v) ;;
  orderDateTo <- (v <- getSingleString (oq_orderDateTo query) ;; parseDate v) ;;
  search <- (v <- getSingleString (oq_search query) ;; sanitizeSearch v) ;;
  Ok {| no_page := non_null page;
        no_limit := limit;
        no_sortField := or_default sortField (js "createdAt");
        no_sortOrder := sortOrder;
        no_status := status;
        no_totalAmountFrom := totalAmountFrom;
        no_totalAmountTo := totalAmountTo;
        no_orderDateFrom := orderDateFrom;
        no_orderDateTo := orderDateTo;
        no_search := search |}.

Definition normalizeCustomerQueryParams (query : CustomerQueryParams)
  (defaultLimit : number) : result NormalizedCustomerParams :=
  page <- (v <- getSingleString (cq_page query) ;; parsePositiveInt v (Some (Fin 1))) ;;
  limit <- (v <- getSingleString (cq_limit query) ;;
            Ok (normalizeLimit (of_string v) defaultLimit)) ;;
  sortField <- getSingleString (cq_sortField query) ;;
  sortOrder <- (v <- getSingleString (cq_sortOrder query) ;; parseSortOrder v desc) ;;
  registrationDateFrom <- (v <- getSingleString (cq_registrationDateFrom query) ;;
                           parseDate v) ;;
  registrationDateTo <- (v <- getSingleString (cq_registrationDateTo query) ;;
                         parseDate v) ;;
  lastOrderDateFrom <- (v <- getSingleString (cq_lastOrderDateFrom query) ;;
                        parseDate v) ;;
  lastOrderDateTo <- (v <- getSingleString (cq_lastOrderDateTo query) ;; parseDate v) ;;
  totalAmountFrom <- (v <- getSingleString (cq_totalAmountFrom query) ;;
                      parseNonNegativeNumber v) ;;
  totalAmountTo <- (v <- getSingleString (cq_totalAmountTo query) ;;
                    parseNonNegativeNumber v) ;;
  orderCountFrom <- (v <- getSingleString (cq_orderCountFrom query) ;;
                     parseNonNegativeNumber v) ;;
  orderCountTo <- (v <- getSingleString (cq_orderCountTo query) ;;
                   parseNonNegativeNumber v) ;;
  search <- (v <- getSingleString (cq_search query) ;; sanitizeSearch v) ;;
  Ok {| nc_page := non_null page;
        nc_limit := limit;
        nc_sortField := or_default sortField (js "createdAt");
        nc_sortOrder := sortOrder;
        nc_registrationDateFrom := registrationDateFrom;
        nc_registrationDateTo := registrationDateTo;
        nc_lastOrderDateFrom := lastOrderDateFrom;
        nc_lastOrderDateTo := lastOrderDateTo;
        nc_totalAmountFrom := totalAmountFrom;
        nc_totalAmountTo := totalAmountTo;
        nc_orderCountFrom := orderCountFrom;
        nc_orderCountTo := orderCountTo;
        nc_search := search |}.
End WithDateParse.

(** A customer bag with every field absent. *)
Definition no_customer_params : CustomerQueryParams :=
  {| cq_page := Absent; cq_limit := Absent; cq_sortField := Absent;
     cq_sortOrder := Absent;
     cq_registrationDateFrom := Absent; cq_registrationDateTo := Absent;
     cq_lastOrderDateFrom := Absent; cq_lastOrderDateTo := Absent;
     cq_totalAmountFrom := Absent; cq_totalAmountTo := Absent;
     cq_orderCountFrom := Absent; cq_orderCountTo := Absent; cq_search := Absent |}.

End ParseQueryParams.

(* ================================================================== *)
(** ** Request data and the storage queries *)

(** What a parsed query string or JSON body holds.  An object is the
    list of its own enumerable properties, in the order [Object.keys]
    gives them (keys pairwise distinct).  An own key [__proto__] is
    kept as a property like any other, although assigning to it in
    JavaScript sets the prototype of the target instead. *)
Unset Elimination Schemes.
Inductive value :=
| VUndefined
| VNull
| VBool (b : bool)
| VNum (n : number)
| VStr (s : jsstring)
| VArr (items : list value)
| VObj (props : list (jsstring * value)).
Set Elimination Schemes.

(** [key.startsWith('$') || key.includes('.')] *)
Definition dangerous_key (key : jsstring) : bool :=
  (match key with c :: _ => char_is "$" c | [] => false end
   || existsb (char_is ".") key)%bool.

Section ForEachKey.
Variable recur : value -> value.

(** [Object.keys(obj).forEach((key) => { ... })] filling [cleanObj]:
    a dangerous key is skipped, any other key gets the cleaned value. *)
Fixpoint forEach_key (props : list (jsstring * value)) : list (jsstring * value) :=
  match props with
  | [] => []
  | (key, v) :: rest =>
      if dangerous_key key then forEach_key rest
      else (key, recur v) :: forEach_key rest
  end.
End ForEachKey.

(** [{ $gte?, $lte? }] *)
Record Range (A : Type) := {
  gte : option A;
  lte : option A
}.
Arguments gte {A} r.
Arguments lte {A} r.

(** [new RegExp(source, flags)] *)
Record RegExp := {
  source : jsstring;
  flags : jsstring
}.

(** The sort object: its keys with their directions, [1] or [-1]. *)
Definition SortSpec := list (jsstring * Z).

Definition direction (o : ParseQueryParams.SortOrder) : Z :=
  match o with
  | ParseQueryParams.desc => -1
  | ParseQueryParams.asc => 1
  end.

(** [from !== undefined || to !== undefined] guards the range object. *)
Definition range_of {A} (from to : option A) : option (Range A) :=
  match from, to with
  | None, None => None
  | _, _ => Some {| gte := from; lte := to |}
  end.

Definition truthy (v : option jsstring) : bool := negb (falsy v).

(* ================================================================== *)
(** ** controllers/customers (the variant that rejects a missing search) *)

Module Customers.
Import ParseQueryParams.

Fixpoint sanitizeObject (obj : value) : value :=
  match obj with
  | VArr items => VArr (map sanitizeObject items)
  | VObj props => VObj (forEach_key sanitizeObject props)
  | _ => obj
  end.

Section Storage.
Variable ObjectId : Type.
(** [Order.find({ $or: [{ deliveryAddress: re }] }, '_id')], mapped
    to the ids. *)
Variable Order_find_by_address : RegExp -> list ObjectId.
(** [utils/escapeRegExp], imported by this controller. *)
Variable escapeRegExp : jsstring -> jsstring.
Variable Date_parse : jsstring -> Date.
Variable LocalTZA : Z -> bool -> Z.

Inductive Condition :=
| NameMatches (re : RegExp)
| LastOrderIn (ids : list ObjectId).

Record Filters := {
  f_createdAt : option (Range Date);
  f_lastOrderDate : option (Range Date);
  f_totalAmount : option (Range number);
  f_orderCount : option (Range number);
  f_or : option (list Condition)
}.

Record Options := {
  o_sort : SortSpec;
  o_skip : number;
  o_limit : number
}.

(** How the handler ends: [next(error)], or the query it hands to
    [User.find(filters, null, options)]. *)
Inductive Outcome :=
| Next (e : error)
| Find (filters : Filters) (options : Options).

Definition allowedSortFields : list jsstring :=
  [js "createdAt"; js "totalAmount"; js "orderCount"; js "name"].

Definition safeSortField (sortField : jsstring) : jsstring :=
  if existsb (jsstring_eqb sortField) allowedSortFields then sortField
  else js "createdAt".

(** [const endOfDay = new Date(to); endOfDay.setHours(23, 59, 59, 999)] *)
Definition endOfDay (to : Date) : Date := setHours LocalTZA to 23 59 59 999.

Definition date_range (from to : option Date) : option (Range Date) :=
  range_of from (option_map endOfDay to).

(** The handler from the normalised parameters on. *)
Definition buildQuery (p : NormalizedCustomerParams) : Outcome :=
  let createdAt := date_range (nc_registrationDateFrom p) (nc_registrationDateTo p) in
  let lastOrderDate := date_range (nc_lastOrderDateFrom p) (nc_lastOrderDateTo p) in
  let totalAmount := range_of (nc_totalAmountFrom p) (nc_totalAmountTo p) in
  let orderCount := range_of (nc_orderCountFrom p) (nc_orderCountTo p) in
  match nc_search p with
  | Some ((_ :: _) as search) =>
      if (List.length search <=? 50)%nat then
        let searchRegex := {| source := escapeRegExp search; flags := js "i" |} in
        let orderIds := Order_find_by_address searchRegex in
        Find {| f_createdAt := createdAt;
                f_lastOrderDate := lastOrderDate;
                f_totalAmount := totalAmount;
                f_orderCount := orderCount;
                f_or := Some [NameMatches searchRegex; LastOrderIn orderIds] |}
             {| o_sort := [(safeSortField (nc_sortField p), direction (nc_sortOrder p))];
                o_skip := num_mul (num_sub (nc_page p) (Fin 1)) (nc_limit p);
                o_limit := nc_limit p |}
      else Next (NotFoundError MsgCustomerSearch)
  | _ => Next (NotFoundError MsgCustomerSearch)
  end.

(** [sanitizeObject(req.query)] returns a bag of this type as it is
    (see [sanitizeObject_query_bag]). *)
Definition getCustomers (query : CustomerQueryParams) : Outcome :=
  match normalizeCustomerQueryParams Date_parse query (Fin 10) with
  | Throw e => Next e
  | Ok p => buildQuery p
  end.
End Storage.

Arguments NameMatches {ObjectId} re.
Arguments LastOrderIn {ObjectId} ids.
Arguments f_createdAt {ObjectId} f.
Arguments f_lastOrderDate {ObjectId} f.
Arguments f_totalAmount {ObjectId} f.
Arguments f_orderCount {ObjectId} f.
Arguments f_or {ObjectId} f.
Arguments Next {ObjectId} e.
Arguments Find {ObjectId} filters options.
Arguments buildQuery {ObjectId}.
Arguments getCustomers {ObjectId}.
End Customers.

(* ================================================================== *)
(** ** The near-duplicate customer controller (lists without a search) *)

Module CustomersAlt.
Import ParseQueryParams.

Fixpoint sanitizeObject (obj : value) : value :=
  match obj with
  | VArr items => VArr (map sanitizeObject items)
  | VObj props => VObj (forEach_key sanitizeObject props)
  | _ => obj
  end.

Definition escapeRegex (text : jsstring) : jsstring := escape_meta text.

Section Storage.
Variable ObjectId : Type.
Variable Order_find_by_address : RegExp -> list ObjectId.
Variable Date_parse : jsstring -> Date.
Variable LocalTZA : Z -> bool -> Z.

Definition Filters := Customers.Filters ObjectId.
Definition Outcome := Customers.Outcome ObjectId.

Definition buildQuery (p : NormalizedCustomerParams) : Outcome :=
  let createdAt :=
    Customers.date_range LocalTZA (nc_registrationDateFrom p) (nc_registrationDateTo p) in
  let lastOrderDate :=
    Customers.date_range LocalTZA (nc_lastOrderDateFrom p) (nc_lastOrderDateTo p) in
  let totalAmount := range_of (nc_totalAmountFrom p) (nc_totalAmountTo p) in
  let orderCount := range_of (nc_orderCountFrom p) (nc_orderCountTo p) in
  let or :=
    match nc_search p with
    | Some ((_ :: _) as search) =>
        if (List.length search <=? 50)%nat then
          let searchRegex := {| source := escapeRegex search; flags := js "i" |} in
          let orderIds := Order_find_by_address searchRegex in
          Some [Customers.NameMatches searchRegex; Customers.LastOrderIn orderIds]
        else None
    | _ => None
    end in
  Customers.Find
    {| Customers.f_createdAt := createdAt;
       Customers.f_lastOrderDate := lastOrderDate;
       Customers.f_totalAmount := totalAmount;
       Customers.f_orderCount := orderCount;
       Customers.f_or := or |}
    {| Customers.o_sort :=
         [(Customers.safeSortField (nc_sortField p), direction (nc_sortOrder p))];
       Customers.o_skip := num_mul (num_sub (nc_page p) (Fin 1)) (nc_limit p);
       Customers.o_limit := nc_limit p |}.

Definition getCustomers (query : CustomerQueryParams) : Outcome :=
  match normalizeCustomerQueryParams Date_parse query (Fin 10) with
  | Throw e => Customers.Next e
  | Ok p => buildQuery p
  end.
End Storage.

Arguments buildQuery {ObjectId}.
Arguments getCustomers {ObjectId}.
End CustomersAlt.

(* ================================================================== *)
(** ** controllers/order: [getOrders] *)

Module Orders.
Import ParseQueryParams.

Inductive Condition :=
| ProductTitleMatches (re : RegExp)
| OrderNumberIs (n : number).

Record Filters := {
  f_status : option jsstring;
  f_totalAmount : option (Range number);
  f_createdAt : option (Range Date);
  f_or : option (list Condition)
}.

(** The stages of the aggregation that depend on the request.  The
    first [$match] holds the very object [filters], so it shows the
    [$or] added to it later. *)
Record Pipeline := {
  p_match : Filters;
  p_search : option (list Condition);
  p_sort : SortSpec;
  p_skip : number;
  p_limit : number
}.

Inductive Outcome :=
| Next (e : error)
| Aggregate (pipeline : Pipeline).

(** [/^[a-zA-Z0-9_-]+$/.test(status)] *)
Definition status_test (status : jsstring) : bool :=
  (nonempty status
   && forallb (fun c => is_word c || char_is "-" c) status)%bool.

(** [/[^\w\s]/.test(search)] *)
Definition search_test (search : jsstring) : bool :=
  existsb (fun c => negb (is_word c || is_space c)) search.

Section Storage.
(** [utils/escapeRegExp], imported by this controller. *)
Variable escapeRegExp : jsstring -> jsstring.
Variable Date_parse : jsstring -> Date.

(** The handler from the normalised parameters on.  The defaults of
    the destructuring never apply: the normaliser defines [page],
    [limit], [sortField] and [sortOrder] in every record. *)
Definition buildQuery (p : NormalizedOrderParams) : result Pipeline :=
  let status := no_status p in
  let search := no_search p in
  _ <- match status with
       | Some ((_ :: _) as s) =>
           if status_test s then Ok tt else Throw (BadRequestError MsgStatus)
       | _ => Ok tt
       end ;;
  _ <- match search with
       | Some ((_ :: _) as s) =>
           if search_test s then Throw (BadRequestError MsgOrderSearch) else Ok tt
       | _ => Ok tt
       end ;;
  let totalAmount := range_of (no_totalAmountFrom p) (no_totalAmountTo p) in
  let createdAt := range_of (no_orderDateFrom p) (no_orderDateTo p) in
  let searchConditions :=
    match search with
    | Some ((_ :: _) as s) =>
        let searchRegex := {| source := escapeRegExp s; flags := js "i" |} in
        let searchNumber := StringToNumber s in
        Some (ProductTitleMatches searchRegex
              :: if isNaN searchNumber then [] else [OrderNumberIs searchNumber])
    | _ => None
    end in
  let sort : SortSpec :=
    if nonempty (no_sortField p)
    then [(no_sortField p, direction (no_sortOrder p))]
    else [] in
  Ok {| p_match := {| f_status := if truthy status then status else None;
                      f_totalAmount := totalAmount;
                      f_createdAt := createdAt;
                      f_or := searchConditions |};
        p_search := searchConditions;
        p_sort := sort;
        p_skip := num_mul (num_sub (no_page p) (Fin 1)) (no_limit p);
        p_limit := no_limit p |}.

Definition getOrders (query : OrderQueryParams) : Outcome :=
  match r <- normalizeOrderQueryParams Date_parse query (Fin 10) ;; buildQuery r with
  | Throw e => Next e
  | Ok pipeline => Aggregate pipeline
  end.
End Storage.
End Orders.

(* ================================================================== *)
(** ** The query bag as request data *)

Import ParseQueryParams.

Definition raw_prop (key : string) (v : RawFieldValue) : list (jsstring * value) :=
  match v with
  | Absent => []
  | Single s => [(js key, VStr s)]
  | Multiple l => [(js key, VArr (map VStr l))]
  end.

(** [req.query] when it has the shape of [CustomerQueryParams]. *)
Definition customer_query_value (q : CustomerQueryParams) : value :=
  VObj (raw_prop "page" (cq_page q) ++ raw_prop "limit" (cq_limit q)
        ++ raw_prop "sortField" (cq_sortField q) ++ raw_prop "sortOrder" (cq_sortOrder q)
        ++ raw_prop "registrationDateFrom" (cq_registrationDateFrom q)
        ++ raw_prop "registrationDateTo" (cq_registrationDateTo q)
        ++ raw_prop "lastOrderDateFrom" (cq_lastOrderDateFrom q)
        ++ raw_prop "lastOrderDateTo" (cq_lastOrderDateTo q)
        ++ raw_prop "totalAmountFrom" (cq_totalAmountFrom q)
        ++ raw_prop "totalAmountTo" (cq_totalAmountTo q)
        ++ raw_prop "orderCountFrom" (cq_orderCountFrom q)
        ++ raw_prop "orderCountTo" (cq_orderCountTo q)
        ++ raw_prop "search" (cq_search q)).

(** All keys of [v], at every depth. *)
Fixpoint keys_of (v : value) : list jsstring :=
  match v with
  | VArr items => flat_map keys_of items
  | VObj props => flat_map (fun kv => let '(key, x) := kv in key :: keys_of x) props
  | _ => []
  end.

(** What the specification calls a dangerous key. *)
Definition starts_with_dollar (key : jsstring) : Prop := exists r, key = ch "$" :: r.
Definition contains_dot (key : jsstring) : Prop := In (ch ".") key.

(* ================================================================== *)
(** ** Hosts for the examples *)

(** A host that parses the ISO date [2024-01-15], midnight UTC, and no
    other text. *)
Definition parse_2024_01_15 (s : jsstring) : Date :=
  if jsstring_eqb s (js "2024-01-15") then TimeValue 1705276800000 else InvalidDate.

(** A host whose local time is UTC. *)
Definition utc_zone (t : Z) (is_utc : bool) : Z := 0.

(** A host whose local time is a fixed offset from UTC. *)
Definition fixed_zone (offset : Z) (t : Z) (is_utc : bool) : Z := offset.

(** An order store with no order. *)
Definition no_orders (re : RegExp) : list Z := [].

(* ================================================================== *)
(** ** Predicates on normalised values *)

(** A finite number is kept in lowest terms. *)
Definition canonical (x : number) : Prop :=
  match x with
  | Fin q => Qred q = q
  | _ => True
  end.

(** A pattern made of plain characters and of metacharacters that each
    follow a backslash: as a regular expression it matches one text,
    literally. *)
Inductive escaped : jsstring -> Prop :=
| escaped_nil : escaped []
| escaped_plain (c : char) (r : jsstring) :
    regex_meta c = false -> escaped r -> escaped (c :: r)
| escaped_meta (c : char) (r : jsstring) :
    regex_meta c = true -> escaped r -> escaped (ch "\" :: c :: r).

(** The conditions the normalisers can fail with. *)
Definition normaliser_error (e : error) : Prop :=
  e = InvalidParameterShape
  \/ e = InvalidSearchTerm
  \/ exists m, e = BadRequestError m /\ InvalidParameter m.

(** What a normalised search text looks like: not empty, no white space
    at either end, and only allowed characters and backslashes. *)
Definition search_shape (s : jsstring) : Prop :=
  s <> [] /\ trim s = s
  /\ forallb (fun c => allowed_char c || char_is "\" c)%bool s = true
  /\ escaped s.

(* ================================================================== *)
(** ** controllers/customers: the handlers on one customer *)

Section OwnOrInherited.
Variable inherited_from : value -> option value.
Variable key : jsstring.

(** One pass over the entries of an object [sanitizeObject] built: the
    own property [key], if any, and what the prototype gives for it.
    The sanitiser fills the object by assignment, so an entry shown
    under [__proto__] is the prototype the object got, not a property
    of its own. *)
Fixpoint own_or_inherited (props : list (jsstring * value))
  : option value * option value :=
  match props with
  | [] => (None, None)
  | (k, x) :: rest =>
      let '(own, inherited) := own_or_inherited rest in
      if jsstring_eqb k (js "__proto__") then (own, inherited_from x)
      else if jsstring_eqb k key then (Some x, inherited)
      else (own, inherited)
  end.
End OwnOrInherited.

(** [obj[key]] for a value that [sanitizeObject] returned and for the
    keys read by the handlers ([name], [email], [roles]): the own
    property first, then the prototype chain; [None] is [undefined].
    Arrays, primitives and the built-in prototypes have no such
    property, and a primitive assigned to [__proto__] is ignored. *)
Fixpoint get_clean (key : jsstring) (v : value) : option value :=
  match v with
  | VObj props =>
      match own_or_inherited (get_clean key) key props with
      | (Some x, _) => Some x
      | (None, inherited) => inherited
      end
  | _ => None
  end.

Module CustomerCrud.

(** The texts of the [NotFoundError]s of these handlers. *)
Inductive not_found :=
| InvalidUserId       (* the id is not a valid user id *)
| UserNotFound.       (* no user has this id *)

(** [typeof req.params.id === 'string' ? req.params.id : ''] *)
Definition id_param (id : option jsstring) : jsstring :=
  match id with
  | Some s => s
  | None => []
  end.

(** The keys copied to [updateData], in the order they are set: [name]
    and [email] when they are strings, [roles] when it is an array. *)
Definition updateData (sanitizedBody : value) : list (jsstring * value) :=
  match get_clean (js "name") sanitizedBody with
  | Some (VStr s) => [(js "name", VStr s)]
  | _ => []
  end
  ++ match get_clean (js "email") sanitizedBody with
     | Some (VStr s) => [(js "email", VStr s)]
     | _ => []
     end
  ++ match get_clean (js "roles") sanitizedBody with
     | Some (VArr items) => [(js "roles", VArr items)]
     | _ => []
     end.

Section Handlers.
(** [Types.ObjectId.isValid(id) && new Types.ObjectId(id).toString() === id],
    a test of the database driver. *)
Variable isValidObjectId : jsstring -> bool.

(** How a handler goes up to its call of the store: an error handed to
    [next], or the call.  The answer of the store decides the rest (no
    document: [next(new NotFoundError(...))]; a document: the response). *)
Inductive Outcome :=
| NextNotFound (m : not_found)
| NextTypeError                     (* a property read off undefined or null *)
| FindById (id : jsstring)
| FindByIdAndUpdate (id : jsstring) (update : list (jsstring * value))
| FindByIdAndDelete (id : jsstring).

Definition getCustomerById (id : option jsstring) : Outcome :=
  if negb (isValidObjectId (id_param id)) then NextNotFound InvalidUserId
  else FindById (id_param id).

Definition updateCustomer (id : option jsstring) (body : value) : Outcome :=
  if negb (isValidObjectId (id_param id)) then NextNotFound InvalidUserId
  else
    let sanitizedBody := Customers.sanitizeObject body in
    match sanitizedBody with
    | VUndefined | VNull => NextTypeError
    | _ => FindByIdAndUpdate (id_param id) (updateData sanitizedBody)
    end.

Definition deleteCustomer (id : option jsstring) : Outcome :=
  if negb (isValidObjectId (id_param id)) then NextNotFound InvalidUserId
  else FindByIdAndDelete (id_param id).
End Handlers.

End CustomerCrud.

(* ================================================================== *)
(** ** More operations on numbers and arrays *)

(** [x + y] *)
Definition num_add (x y : number) : number :=
  match x, y with
  | NaN, _ | _, NaN => NaN
  | Infinity a, Infinity b => if Bool.eqb a b then Infinity a else NaN
  | Infinity a, Fin _ => Infinity a
  | Fin _, Infinity b => Infinity b
  | Fin a, Fin b => round64 (Qred (a + b))
  end.

(** [x / y]; a zero divisor is taken as [+0]. *)
Definition num_div (x y : number) : number :=
  match x, y with
  | NaN, _ | _, NaN => NaN
  | Infinity _, Infinity _ => NaN
  | Infinity a, Fin q => Infinity (xorb a (Qnum q <? 0))
  | Fin _, Infinity _ => Fin 0
  | Fin a, Fin b =>
      if Qnum b =? 0 then
        match Qnum a with
        | Z0 => NaN
        | Zpos _ => Infinity false
        | Zneg _ => Infinity true
        end
      else round64 (Qred (a / b))
  end.

(** [x === y] on numbers *)
Definition num_eqb (x y : number) : bool :=
  match x, y with
  | Fin a, Fin b => Qeq_bool a b
  | Infinity a, Infinity b => Bool.eqb a b
  | _, _ => false
  end.

(** [x || d] on numbers: [d] when [x] is [NaN] or zero. *)
Definition num_or (x d : number) : number :=
  match x with
  | NaN => d
  | Infinity _ => x
  | Fin q => if Qnum q =? 0 then d else x
  end.

Definition Math_max (x y : number) : number :=
  match x, y with
  | NaN, _ | _, NaN => NaN
  | _, _ => if num_leb x y then y else x
  end.

Definition Math_ceil (x : number) : number :=
  match x with
  | Fin q => Fin (- (- Qnum q / Zpos (Qden q)) # 1)
  | _ => x
  end.

(** An index of [Array.prototype.slice] on an array of [len] elements:
    truncated to an integer, counted from the end when negative, and
    clamped into [0 .. len]. *)
Definition slice_index (x : number) (len : nat) : nat :=
  match x with
  | NaN => 0%nat
  | Infinity negative => if negative then 0%nat else len
  | Fin q =>
      let k := Z.quot (Qnum q) (Zpos (Qden q)) in
      if k <? 0 then Z.to_nat (Z.max (Z.of_nat len + k) 0)
      else Z.to_nat (Z.min k (Z.of_nat len))
  end.

(** [l.slice(start, finish)] *)
Definition slice {A} (l : list A) (start finish : number) : list A :=
  let k := slice_index start (List.length l) in
  let final := slice_index finish (List.length l) in
  firstn (final - k) (skipn k l).

(** [l.join(",")], which is what reading an array as a string gives. *)
Fixpoint join_comma (l : list jsstring) : jsstring :=
  match l with
  | [] => []
  | [s] => s
  | s :: r => s ++ ch "," :: join_comma r
  end.

(* ================================================================== *)
(** ** controllers/order: [getOrdersCurrentUser] *)

Module UserOrders.
Import ParseQueryParams.

Inductive failure :=
| UserMissing        (* NotFoundError: no user has the given id *)
| SearchTooLong.     (* BadRequestError: the search query is too long *)

(** [{ title: re }], with [$or: [{ title: re }, { price: n }]] added
    when the search reads as a number. *)
Record ProductQuery := {
  pq_title : RegExp;
  pq_or_price : option number
}.

Record Response (Order : Type) := {
  r_orders : list Order;
  r_totalOrders : number;
  r_totalPages : number;
  r_currentPage : number;
  r_pageSize : number
}.
Arguments r_orders {Order} r.
Arguments r_totalOrders {Order} r.
Arguments r_totalPages {Order} r.
Arguments r_currentPage {Order} r.
Arguments r_pageSize {Order} r.

Inductive Outcome (Order : Type) :=
| Next (e : failure)
| Respond (r : Response Order).
Arguments Next {Order} e.
Arguments Respond {Order} r.

(** A query value read where a string is expected, after the default
    of the destructuring. *)
Definition text_of (v : RawFieldValue) (default : jsstring) : jsstring :=
  match v with
  | Absent => default
  | Single s => s
  | Multiple l => join_comma l
  end.

(** [Math.max(1, parseInt(page, 10) || 1)] with [page = '1'] by default *)
Definition currentPage (page : RawFieldValue) : number :=
  Math_max (Fin 1) (num_or (parseInt (text_of page (js "1"))) (Fin 1)).

(** [normalizeLimit(limit, 5)] with [limit = '5'] by default *)
Definition normalizedLimit (limit : RawFieldValue) : number :=
  normalizeLimit (match limit with Absent => Single (js "5") | v => v end) (Fin 5).

Section Handler.
Variable Order : Type.
Variable orderNumber : Order -> number.
(** [product._id.toString()] over [order.products] *)
Variable product_ids : Order -> list jsstring.
(** [utils/escapeRegExp], imported by this controller. *)
Variable escapeRegExp : jsstring -> jsstring.
(** [Product.find(query)]: the ids of the products found, as strings,
    in the order the store gives them. *)
Variable Product_find : ProductQuery -> list jsstring.

(** The orders the search keeps. *)
Definition matching (search : jsstring) (orders : list Order) : list Order :=
  let searchRegex := {| source := escapeRegExp search; flags := js "i" |} in
  let searchNumber := StringToNumber search in
  let hasValidNumber := negb (isNaN searchNumber) in
  let productQuery :=
    {| pq_title := searchRegex;
       pq_or_price := if hasValidNumber then Some searchNumber else None |} in
  let productIdsSet := firstn 50 (Product_find productQuery) in
  filter (fun order =>
            let matchesProductTitle :=
              existsb (fun id => existsb (jsstring_eqb id) productIdsSet)
                      (product_ids order) in
            let matchesOrderNumber :=
              (hasValidNumber && num_eqb (orderNumber order) searchNumber)%bool in
            (matchesOrderNumber || matchesProductTitle)%bool)
         orders.

(** The orders to paginate, or [None] when the search is refused. *)
Definition candidates (search : RawFieldValue) (orders : list Order)
  : option (list Order) :=
  match search with
  | Single ((_ :: _) as s) =>
      if (100 <? List.length s)%nat then None else Some (matching s orders)
  | _ => Some orders
  end.

(** [user_orders] is what [User.findById(userId).populate(...)] gives:
    the orders of the user, or nothing when there is no such user. *)
Definition getOrdersCurrentUser (search page limit : RawFieldValue)
  (user_orders : option (list Order)) : Outcome Order :=
  let normalizedLimit := normalizedLimit limit in
  let currentPage := currentPage page in
  let skip := num_mul (num_sub currentPage (Fin 1)) normalizedLimit in
  match user_orders with
  | None => Next UserMissing
  | Some orders =>
      match candidates search orders with
      | None => Next SearchTooLong
      | Some orders =>
          let totalOrders := of_Z (Z.of_nat (List.length orders)) in
          let totalPages := Math_ceil (num_div totalOrders normalizedLimit) in
          let paginatedOrders := slice orders skip (num_add skip normalizedLimit) in
          Respond {| r_orders := paginatedOrders;
                     r_totalOrders := totalOrders;
                     r_totalPages := totalPages;
                     r_currentPage := currentPage;
                     r_pageSize := normalizedLimit |}
      end
  end.
End Handler.

Arguments matching {Order}.
Arguments candidates {Order}.
Arguments getOrdersCurrentUser {Order}.

End UserOrders.

(* ================================================================== *)
(** ** utils/parseQueryParams: [normalizePhone] *)

(** What [parsePhoneNumberFromString] of libphonenumber-js gives when it
    gives something: [isValid()] and [number]. *)
Record PhoneNumber := {
  pn_isValid : bool;
  pn_number : jsstring
}.

(** [input.replace] of every character that is no digit and no plus sign by the empty string *)
Definition clean_phone (input : jsstring) : jsstring :=
  filter (fun c => is_digit c || char_is "+" c)%bool input.

Section Phone.
Variable parsePhoneNumberFromString : jsstring -> jsstring -> option PhoneNumber.

(** [None] is [null]. *)
Definition normalizePhone (input : value) (defaultCountry : jsstring) : option jsstring :=
  match input with
  | VStr s =>
      match parsePhoneNumberFromString (clean_phone s) defaultCountry with
      | Some phoneNumber =>
          if pn_isValid phoneNumber then Some (pn_number phoneNumber) else None
      | None => None
      end
  | _ => None
  end.
End Phone.

(* ================================================================== *)
(** ** controllers/order: [createOrder] *)

(** [obj[key]] for an own property of a request body as it was parsed;
    [None] is [undefined].  (The keys read here are on no built-in
    prototype.) *)
Definition get_own (key : jsstring) (v : value) : option value :=
  match v with
  | VObj props =>
      match find (fun kv => jsstring_eqb (fst kv) key) props with
      | Some (_, x) => Some x
      | None => None
      end
  | _ => None
  end.

(** A destructured property with a default: the default stands in for
    a missing or [undefined] property only. *)
Definition get_default (key : jsstring) (v : value) (default : value) : value :=
  match get_own key v with
  | None | Some VUndefined => default
  | Some x => x
  end.

Module NewOrders.

Inductive rejection :=
| ItemsNotArray                    (* the items field must be an array *)
| ProductNotFound (id : value)     (* no product with id ${id} *)
| ProductNotForSale (id : value)   (* the product with id ${id} is not for sale *)
| WrongTotal                       (* wrong order total *)
| BadPhone.                        (* incorrect phone number *)

Section Handler.
Variable ObjectId : Type.
(** [p._id.equals(id)] of the database driver *)
Variable id_equals : ObjectId -> value -> bool.
Variable parsePhoneNumberFromString : jsstring -> jsstring -> option PhoneNumber.
(** [middlewares/sanitize]: DOMPurify with no tag and no attribute
    allowed, a library. *)
Variable sanitizeHtml : value -> jsstring.

(** [price] is [None] for [null]. *)
Record Product := {
  pr_id : ObjectId;
  pr_price : option number
}.

(** The document given to [new Order(...)]. *)
Record Order := {
  totalAmount : value;
  products : list value;
  payment : jsstring;
  phone : jsstring;
  email : jsstring;
  comment : jsstring;
  customer : ObjectId;
  deliveryAddress : jsstring
}.

(** How the handler goes up to saving: a [BadRequestError] handed to
    [next], a [TypeError] (the body is [undefined] or [null]), or the
    order it builds and saves. *)
Inductive Outcome :=
| Next (e : rejection)
| NextTypeError
| Save (order : Order).

(** [items.forEach(...)] filling [basket]; the first item that fails
    throws. *)
Fixpoint fill_basket (store : list Product) (items : list value)
  : rejection + list Product :=
  match items with
  | [] => inr []
  | id :: rest =>
      match find (fun p => id_equals (pr_id p) id) store with
      | None => inl (ProductNotFound id)
      | Some product =>
          match pr_price product with
          | None => inl (ProductNotForSale id)
          | Some _ =>
              match fill_basket store rest with
              | inl e => inl e
              | inr basket => inr (product :: basket)
              end
          end
      end
  end.

(** [basket.reduce((sum, product) => sum + product.price, 0)] *)
Definition totalBasket (basket : list Product) : number :=
  fold_left (fun sum product =>
               num_add sum (match pr_price product with
                            | Some price => price
                            | None => Fin 0
                            end))
            basket (Fin 0).

(** [sanitizeHtml(input).slice(0, maxLength)] *)
Definition sanitizeAndTrim (input : value) (maxLength : nat) : jsstring :=
  firstn maxLength (sanitizeHtml input).

(** [store] is what [Product.find({})] gives. *)
Definition createOrder (userId : ObjectId) (store : list Product) (body : value)
  : Outcome :=
  match body with
  | VUndefined | VNull => NextTypeError
  | _ =>
      let address := get_default (js "address") body (VStr []) in
      let payment := get_default (js "payment") body (VStr []) in
      let phone := get_default (js "phone") body (VStr []) in
      let total := get_default (js "total") body VUndefined in
      let email := get_default (js "email") body (VStr []) in
      let items := get_default (js "items") body VUndefined in
      let comment := get_default (js "comment") body (VStr []) in
      match items with
      | VArr items =>
          match fill_basket store items with
          | inl e => Next e
          | inr basket =>
              if match total with
                 | VNum n => num_eqb (totalBasket basket) n
                 | _ => false
                 end
              then
                match normalizePhone parsePhoneNumberFromString phone (js "RU") with
                | Some ((_ :: _) as normalizedPhone) =>
                    Save {| totalAmount := total;
                            products := items;
                            payment := sanitizeAndTrim payment 50;
                            phone := normalizedPhone;
                            email := sanitizeAndTrim email 100;
                            comment := sanitizeAndTrim comment 1000;
                            customer := userId;
                            deliveryAddress := sanitizeAndTrim address 200 |}
                | _ => Next BadPhone
                end
              else Next WrongTotal
          end
      | _ => Next ItemsNotArray
      end
  end.
End Handler.

Arguments pr_id {ObjectId} p.
Arguments pr_price {ObjectId} p.
Arguments totalAmount {ObjectId} o.
Arguments products {ObjectId} o.
Arguments payment {ObjectId} o.
Arguments phone {ObjectId} o.
Arguments email {ObjectId} o.
Arguments comment {ObjectId} o.
Arguments customer {ObjectId} o.
Arguments deliveryAddress {ObjectId} o.
Arguments Next {ObjectId} e.
Arguments NextTypeError {ObjectId}.
Arguments Save {ObjectId} order.
Arguments fill_basket {ObjectId}.
Arguments totalBasket {ObjectId}.
Arguments createOrder {ObjectId}.

End NewOrders.

(* ================================================================== *)
(** ** The upload controller: [isFilenameSafe] and the checks of
    [uploadFile] *)

Module Upload.

Definition ALLOWED_MIME_TYPES : list jsstring :=
  [js "image/png"; js "image/jpg"; js "image/jpeg"; js "image/gif"; js "image/svg+xml"].

(** The case folding of a pattern with the [i] flag and without the [u]
    flag: a code unit is compared by its upper case, and only the ASCII
    letters fold onto ASCII letters. *)
Definition to_upper (c : char) : char :=
  if is_lower c then (c - 32)%N else c.

(** The character class of the pattern: less-than, greater-than,
    colon, double quote (code 34), slash, backslash, bar, question mark
    and star. *)
Definition unsafe_char (c : char) : bool :=
  (char_is "<" c || char_is ">" c || char_is ":" c || N.eqb c 34
   || char_is "/" c || char_is "\" c || char_is "|" c || char_is "?" c
   || char_is "*" c)%bool.

Definition digits_1_9 : list jsstring :=
  [js "1"; js "2"; js "3"; js "4"; js "5"; js "6"; js "7"; js "8"; js "9"].

(** [CON|PRN|AUX|NUL|COM[1-9]|LPT[1-9]] *)
Definition reserved_names : list jsstring :=
  [js "CON"; js "PRN"; js "AUX"; js "NUL"]
  ++ map (fun d => js "COM" ++ d) digits_1_9
  ++ map (fun d => js "LPT" ++ d) digits_1_9.

(** [unsafeChars.test(filename)]: a character of the class anywhere,
    or the whole name a reserved one in any letter case. *)
Definition unsafeChars_test (filename : jsstring) : bool :=
  (existsb unsafe_char filename
   || existsb (jsstring_eqb (map to_upper filename)) reserved_names)%bool.

Definition isFilenameSafe (filename : jsstring) : bool :=
  negb (unsafeChars_test filename).

(** [req.file]; [size] in bytes. *)
Record File := {
  mimetype : jsstring;
  originalname : jsstring;
  size : Z;
  filename : jsstring
}.

Inductive rejection :=
| NoFile            (* no file was uploaded *)
| BadMimeType       (* inadmissible file type *)
| UnsafeName        (* inadmissible file name *)
| TooSmall          (* the file must be larger than 2KB *)
| TooLarge.         (* the file must not exceed 10MB *)

(** The handler up to the point where it opens the stored file as an
    image: a [BadRequestError] handed to [next], or the file it goes on
    with. *)
Inductive Outcome :=
| Next (e : rejection)
| ReadImage (file : File).

Definition uploadFile (file : option File) : Outcome :=
  match file with
  | None => Next NoFile
  | Some f =>
      if negb (existsb (jsstring_eqb (mimetype f)) ALLOWED_MIME_TYPES)
      then Next BadMimeType
      else if negb (isFilenameSafe (originalname f)) then Next UnsafeName
      else if size f <? 2 * 1024 then Next TooSmall
      else if 10 * 1024 * 1024 <? size f then Next TooLarge
      else ReadImage f
  end.

End Upload.

(* ================================================================== *)
(** ** Tactics for facts about code units *)

(** Splitting boolean facts about code units into arithmetic. *)
Ltac bool_hyps :=
  repeat match goal with
  | H : (_ || _)%bool = true |- _ => apply orb_true_iff in H; destruct H as [H|H]
  | H : (_ && _)%bool = true |- _ => apply andb_true_iff in H; destruct H
  | H : N.leb _ _ = true |- _ => apply N.leb_le in H
  | H : N.eqb _ _ = true |- _ => apply N.eqb_eq in H
  end.

Ltac char_goal :=
  repeat (match goal with
          | |- context [N.eqb ?a ?b] => destruct (N.eqb_spec a b)
          | |- context [N.leb ?a ?b] => destruct (N.leb_spec a b)
          end; try lia; cbn [andb orb negb]);
  try reflexivity.

Ltac char_solve :=
  cbv -[N.leb N.eqb andb orb negb] in *; bool_hyps; char_goal.


(* ================================================================== *)
(** * Properties *)

(* ------------------------------------------------------------------ *)
(** ** Lists, characters and trimming *)

Section DropWhile.
Context {A : Type} (p : A -> bool).

Lemma dropwhile_idem (l : list A) : dropwhile p (dropwhile p l) = dropwhile p l.
Proof.
  induction l as [|x r IH]; simpl; trivial.
  destruct (p x) eqn:E; trivial.
  simpl. now rewrite E.
Qed.

Lemma dropwhile_snoc (l : list A) (c : A) :
  p c = false -> dropwhile p (l ++ [c]) = dropwhile p l ++ [c].
Proof.
  intros Hc. induction l as [|x r IH]; simpl.
  - now rewrite Hc.
  - destruct (p x); trivial.
Qed.

Lemma dropwhile_keeps (l : list A) (c : A) :
  In c l -> p c = false -> In c (dropwhile p l).
Proof.
  induction l as [|x r IH]; simpl; intros Hin Hc; trivial.
  destruct Hin as [->|Hin].
  - rewrite Hc. now left.
  - destruct (p x); [auto | now right].
Qed.

Lemma dropwhile_incl (l : list A) (c : A) : In c (dropwhile p l) -> In c l.
Proof.
  induction l as [|x r IH]; simpl; trivial.
  destruct (p x); auto.
Qed.

Lemma dropwhile_head (l : list A) :
  dropwhile p l = [] \/ exists x r, dropwhile p l = x :: r /\ p x = false.
Proof.
  induction l as [|x r IH]; simpl; auto.
  destruct (p x) eqn:E; trivial.
  right. now exists x, r.
Qed.

Lemma takewhile_all (l : list A) : forallb p l = true -> takewhile p l = l.
Proof.
  induction l as [|x r IH]; simpl; trivial.
  destruct (p x); simpl; [intros H; now rewrite IH | discriminate].
Qed.

Lemma dropwhile_all (l : list A) : forallb p l = true -> dropwhile p l = [].
Proof.
  induction l as [|x r IH]; simpl; trivial.
  destruct (p x); simpl; [exact IH | discriminate].
Qed.
End DropWhile.

Lemma trim_start_fixed (s : jsstring) : dropwhile is_space (trim s) = trim s.
Proof.
  unfold trim, trimEnd, trimStart.
  destruct (dropwhile_head is_space s) as [E | (c & u & E & Hc)]; rewrite E; trivial.
  simpl rev. rewrite (dropwhile_snoc _ _ _ Hc), rev_app_distr. simpl.
  now rewrite Hc.
Qed.

Lemma trim_end_fixed (s : jsstring) : dropwhile is_space (rev (trim s)) = rev (trim s).
Proof.
  unfold trim, trimEnd. rewrite rev_involutive. apply dropwhile_idem.
Qed.

Lemma trim_fixed (t : jsstring) :
  dropwhile is_space t = t -> dropwhile is_space (rev t) = rev t -> trim t = t.
Proof.
  intros H1 H2. unfold trim, trimEnd, trimStart.
  now rewrite H1, H2, rev_involutive.
Qed.

Lemma trim_idem (s : jsstring) : trim (trim s) = trim s.
Proof. apply trim_fixed; [apply trim_start_fixed | apply trim_end_fixed]. Qed.

Lemma trim_keeps (s : jsstring) (c : char) :
  In c s -> is_space c = false -> In c (trim s).
Proof.
  intros Hin Hc. unfold trim, trimEnd, trimStart.
  apply in_rev. rewrite rev_involutive.
  apply dropwhile_keeps; trivial.
  apply -> in_rev. now apply dropwhile_keeps.
Qed.

Lemma trim_incl (s : jsstring) (c : char) : In c (trim s) -> In c s.
Proof.
  unfold trim, trimEnd, trimStart. intros Hin.
  apply in_rev in Hin. apply dropwhile_incl in Hin.
  apply in_rev in Hin. now apply dropwhile_incl in Hin.
Qed.

Lemma digit_not_space (c : char) : is_digit c = true -> is_space c = false.
Proof. intros H. char_solve. Qed.

(** Among the allowed characters only the dot and the plus are
    metacharacters. *)
Lemma allowed_meta (c : char) :
  allowed_char c = true -> regex_meta c = (char_is "." c || char_is "+" c)%bool.
Proof. intros H. char_solve. Qed.

Lemma backslash_not_allowed : allowed_char (ch "\") = false.
Proof. reflexivity. Qed.

Lemma backslash_not_space : is_space (ch "\") = false.
Proof. reflexivity. Qed.

(* ------------------------------------------------------------------ *)
(** ** The search sanitiser *)

Lemma forallb_false_at {A} (p : A -> bool) (l : list A) (c : A) :
  In c l -> p c = false -> forallb p l = false.
Proof.
  intros Hin Hc. destruct (forallb p l) eqn:E; trivial.
  rewrite forallb_forall in E. rewrite (E c Hin) in Hc. discriminate.
Qed.

Lemma forallb_incl {A} (p : A -> bool) (l l' : list A) :
  (forall c, In c l' -> In c l) -> forallb p l = true -> forallb p l' = true.
Proof.
  rewrite !forallb_forall. auto.
Qed.

(** How [sanitizeSearch] goes on a non-empty text. *)
Lemma sanitizeSearch_nonempty (v : jsstring) :
  v <> [] ->
  sanitizeSearch (Some v) =
    match trim v with
    | [] => Ok None
    | t => if allowed_test t then Ok (Some (escape_meta t))
           else Throw InvalidSearchTerm
    end.
Proof.
  intros Hv. destruct v as [|c r]; [congruence|].
  unfold sanitizeSearch. destruct (trim (c :: r)) as [|x t]; trivial.
  cbn [List.length Nat.eqb]. now destruct (allowed_test (x :: t)).
Qed.

Lemma escape_meta_plain (t : jsstring) :
  forallb (fun c => negb (regex_meta c)) t = true -> escape_meta t = t.
Proof.
  unfold escape_meta. induction t as [|c r IH]; simpl; trivial.
  destruct (regex_meta c); simpl; [discriminate|].
  intros H. f_equal. exact (IH H).
Qed.

Lemma escape_meta_backslash (t : jsstring) (c : char) :
  In c t -> regex_meta c = true -> In (ch "\") (escape_meta t).
Proof.
  intros Hin Hc. unfold escape_meta. apply in_flat_map.
  exists c. split; trivial. rewrite Hc. now left.
Qed.

(** C5.  A search text whose trimmed value holds a character outside
    the allow-list [[A-Za-z0-9], white space, [-], [_], [.], [+], [%]]
    is refused with the InvalidSearchTerm condition, a [BadRequestError]:
    it is neither escaped nor passed on. *)
Theorem sanitizeSearch_rejects_disallowed (s : jsstring) :
  existsb (fun c => negb (allowed_char c)) (trim s) = true ->
  sanitizeSearch (Some s) = Throw InvalidSearchTerm
  /\ InvalidSearchTerm = BadRequestError MsgSearchChars.
Proof.
  intros H. split; [|reflexivity].
  apply existsb_exists in H. destruct H as (c & Hin & Hc).
  apply negb_true_iff in Hc.
  assert (Hs : s <> []) by (intros ->; exact Hin).
  rewrite (sanitizeSearch_nonempty s Hs).
  destruct (trim s) as [|x t] eqn:E; [contradiction|].
  unfold allowed_test. rewrite (forallb_false_at _ _ c Hin Hc).
  now rewrite andb_false_r.
Qed.

(** The scenario of the specification: an apostrophe is refused, by the
    sanitiser and by the customer normaliser that calls it. *)
Lemma sanitizeSearch_rejects_apostrophe :
  existsb (fun c => negb (allowed_char c)) (trim (js "O'Brien")) = true
  /\ sanitizeSearch (Some (js "O'Brien")) = Throw InvalidSearchTerm.
Proof.
  split; [reflexivity|].
  apply (sanitizeSearch_rejects_disallowed (js "O'Brien")). reflexivity.
Defined.

Lemma normalizeCustomerQueryParams_apostrophe (Date_parse : jsstring -> Date) :
  normalizeCustomerQueryParams Date_parse
    {| cq_page := Absent; cq_limit := Absent; cq_sortField := Absent;
       cq_sortOrder := Absent;
       cq_registrationDateFrom := Absent; cq_registrationDateTo := Absent;
       cq_lastOrderDateFrom := Absent; cq_lastOrderDateTo := Absent;
       cq_totalAmountFrom := Absent; cq_totalAmountTo := Absent;
       cq_orderCountFrom := Absent; cq_orderCountTo := Absent;
       cq_search := Single (js "O'Brien") |} (Fin 10)
  = Throw InvalidSearchTerm.
Proof. reflexivity. Qed.

(** C2 as the specification words it (idempotence on every allowed
    text) does not hold: the escaped output of an accepted text holds a
    backslash, which the allow-list refuses. *)
Lemma sanitizeSearch_output_refused :
  forallb allowed_char (js "a.b") = true
  /\ sanitizeSearch (Some (js "a.b")) = Ok (Some (js "a\.b"))
  /\ sanitizeSearch (Some (js "a\.b")) = Throw InvalidSearchTerm.
Proof. repeat split. Qed.

(** C2, amended.  On a text made of allowed characters the sanitiser
    never fails, and its output is the trimmed text with each dot and
    plus prefixed by a backslash.  Sanitising that output again gives it
    back unchanged exactly when the text has neither dot nor plus; with
    a dot or a plus the output holds a backslash, which is outside the
    allow-list, and the second pass fails with InvalidSearchTerm. *)
Theorem sanitizeSearch_second_pass (s : jsstring) :
  forallb allowed_char s = true ->
  exists r, sanitizeSearch (Some s) = Ok r /\
    match r with
    | None => trim s = []
    | Some out =>
        out = escape_meta (trim s) /\
        if existsb (fun c => char_is "." c || char_is "+" c)%bool s
        then sanitizeSearch (Some out) = Throw InvalidSearchTerm
        else out = trim s /\ sanitizeSearch (Some out) = Ok (Some out)
    end.
Proof.
  intros Hall.
  destruct s as [|c0 r0]; [exists None; split; reflexivity|].
  set (s := c0 :: r0) in *.
  assert (Hs : s <> []) by discriminate.
  rewrite (sanitizeSearch_nonempty s Hs).
  assert (Ht : forallb allowed_char (trim s) = true)
    by (apply (forallb_incl _ s); [apply trim_incl | exact Hall]).
  destruct (trim s) as [|x t] eqn:E; [exists None; split; reflexivity|].
  unfold allowed_test at 1. rewrite Ht. cbn [nonempty andb].
  exists (Some (escape_meta (x :: t))). split; [reflexivity|].
  split; [reflexivity|].
  destruct (existsb _ s) eqn:Hdot.
  - (* a dot or a plus: the output holds a backslash *)
    apply existsb_exists in Hdot. destruct Hdot as (c & Hin & Hc).
    assert (Hallowed : allowed_char c = true)
      by (rewrite forallb_forall in Hall; auto).
    assert (Hmeta : regex_meta c = true) by (now rewrite allowed_meta).
    assert (Hsp : is_space c = false) by (clear - Hc; char_solve).
    assert (Hb : In (ch "\") (escape_meta (x :: t))).
    { apply (escape_meta_backslash _ c); trivial.
      rewrite <- E. now apply trim_keeps. }
    assert (Hne : escape_meta (x :: t) <> []) by (intros Z; now rewrite Z in Hb).
    rewrite (sanitizeSearch_nonempty _ Hne).
    pose proof (trim_keeps _ _ Hb backslash_not_space) as Hb'.
    destruct (trim (escape_meta (x :: t))) as [|y u]; [contradiction|].
    unfold allowed_test.
    rewrite (forallb_false_at _ _ _ Hb' backslash_not_allowed).
    now rewrite andb_false_r.
  - (* neither: nothing is escaped and the output is a fixed point *)
    assert (Hplain : escape_meta (x :: t) = x :: t).
    { apply escape_meta_plain. apply forallb_forall. intros c Hin.
      assert (Hins : In c s) by (apply trim_incl; now rewrite E).
      rewrite allowed_meta by (rewrite forallb_forall in Hall; auto).
      destruct (char_is "." c || char_is "+" c)%bool eqn:Hc; trivial.
      assert (existsb (fun c => char_is "." c || char_is "+" c)%bool s = true)
        by (apply existsb_exists; now exists c).
      congruence. }
    rewrite Hplain. split; [reflexivity|].
    rewrite (sanitizeSearch_nonempty (x :: t)) by discriminate.
    rewrite <- E, trim_idem, E.
    unfold allowed_test. rewrite Ht. cbn [nonempty andb]. now rewrite Hplain.
Qed.

Lemma sanitizeSearch_second_pass_example :
  forallb allowed_char (js "  john-doe 42 ") = true
  /\ exists r, sanitizeSearch (Some (js "  john-doe 42 ")) = Ok r /\
       match r with
       | None => trim (js "  john-doe 42 ") = []
       | Some out =>
           out = escape_meta (trim (js "  john-doe 42 ")) /\
           if existsb (fun c => char_is "." c || char_is "+" c)%bool (js "  john-doe 42 ")
           then sanitizeSearch (Some out) = Throw InvalidSearchTerm
           else out = trim (js "  john-doe 42 ")
                /\ sanitizeSearch (Some out) = Ok (Some out)
       end.
Proof.
  split; [reflexivity|].
  apply (sanitizeSearch_second_pass (js "  john-doe 42 ")). reflexivity.
Defined.

(* ------------------------------------------------------------------ *)
(** ** Single-value extraction *)

(** C6.  [getSingleString] fails exactly on a sequence of more than one
    element, and then with InvalidParameterShape; a one-element sequence
    gives its element, a string gives itself, an absent value gives
    absence. *)
Theorem getSingleString_shape (v : RawFieldValue) :
  ((exists e, getSingleString v = Throw e)
   <-> (exists l, v = Multiple l /\ (1 < List.length l)%nat))
  /\ (forall e, getSingleString v = Throw e -> e = InvalidParameterShape)
  /\ (forall a, getSingleString (Multiple [a]) = Ok (Some a))
  /\ (forall s, getSingleString (Single s) = Ok (Some s))
  /\ getSingleString Absent = Ok None.
Proof.
  repeat split; intros.
  - destruct H as (e & He).
    destruct v as [|s|[|a [|b l]]]; try discriminate.
    exists (a :: b :: l). split; [reflexivity | simpl; lia].
  - destruct H as (l & -> & Hl).
    destruct l as [|a [|b l]]; simpl in Hl; try lia.
    now exists InvalidParameterShape.
  - unfold InvalidParameterShape.
    destruct v as [|s|[|a [|b l]]]; simpl in H; congruence.
Qed.

Lemma getSingleString_scenario :
  getSingleString (Multiple [js "a"; js "b"]) = Throw InvalidParameterShape
  /\ getSingleString (Multiple [js "a"]) = Ok (Some (js "a"))
  /\ getSingleString (Multiple []) = Ok None.
Proof. repeat split. Qed.

(* ------------------------------------------------------------------ *)
(** ** The object sanitiser *)

(** Induction on request data, through arrays and objects. *)
Lemma value_ind (P : value -> Prop) :
  P VUndefined -> P VNull ->
  (forall b, P (VBool b)) -> (forall n, P (VNum n)) -> (forall s, P (VStr s)) ->
  (forall items, Forall P items -> P (VArr items)) ->
  (forall props, Forall (fun kv => P (snd kv)) props -> P (VObj props)) ->
  forall v, P v.
Proof.
  intros Hu Hn Hb Hnum Hs Harr Hobj.
  fix IH 1.
  intros [ | | b | n | s | items | props];
    [exact Hu | exact Hn | apply Hb | apply Hnum | apply Hs | | ].
  - apply Harr. induction items as [|x xs IHxs]; constructor; [apply IH | exact IHxs].
  - apply Hobj. induction props as [|[k x] ps IHps]; constructor; [apply IH | exact IHps].
Qed.

Lemma sanitizeObject_same (v : value) :
  CustomersAlt.sanitizeObject v = Customers.sanitizeObject v.
Proof. reflexivity. Qed.

Lemma dangerous_key_spec (key : jsstring) :
  dangerous_key key = false <-> ~ starts_with_dollar key /\ ~ contains_dot key.
Proof.
  unfold dangerous_key, starts_with_dollar, contains_dot. split.
  - intros H. apply orb_false_iff in H. destruct H as [Hd Hdot]. split.
    + intros (r & ->). unfold char_is in Hd. now rewrite N.eqb_refl in Hd.
    + intros Hin.
      assert (existsb (char_is ".") key = true)
        by (apply existsb_exists; exists (ch "."); split; [exact Hin | reflexivity]).
      congruence.
  - intros [Hd Hdot]. apply orb_false_iff. split.
    + destruct key as [|c r]; trivial.
      destruct (char_is "$" c) eqn:E; trivial.
      apply N.eqb_eq in E. subst c. exfalso. apply Hd. now exists r.
    + destruct (existsb (char_is ".") key) eqn:E; trivial.
      apply existsb_exists in E. destruct E as (c & Hin & Hc).
      apply N.eqb_eq in Hc. subst c. contradiction.
Qed.

Lemma keys_of_sanitized (v : value) :
  Forall (fun key => dangerous_key key = false) (keys_of (Customers.sanitizeObject v)).
Proof.
  induction v as [ | | b | n | s | items IH | props IH] using value_ind;
    simpl; try constructor.
  - induction IH as [|x xs Hx _ IHxs]; simpl; [constructor|].
    apply Forall_app. now split.
  - induction IH as [|[k x] ps Hx _ IHps]; simpl; [constructor|].
    destruct (dangerous_key k) eqn:Hk; trivial.
    simpl. constructor; trivial.
    apply Forall_app. now split.
Qed.

(** C7.  Whatever the input, no key of the sanitised value, at any
    depth, starts with [$] or contains a dot; this holds for the copy of
    [sanitizeObject] in each of the two customer controllers. *)
Theorem sanitizeObject_no_dangerous_keys (v : value) :
  Forall (fun key => ~ starts_with_dollar key /\ ~ contains_dot key)
         (keys_of (Customers.sanitizeObject v))
  /\ Forall (fun key => ~ starts_with_dollar key /\ ~ contains_dot key)
            (keys_of (CustomersAlt.sanitizeObject v)).
Proof.
  assert (H : Forall (fun key => ~ starts_with_dollar key /\ ~ contains_dot key)
                     (keys_of (Customers.sanitizeObject v))).
  { eapply Forall_impl; [|apply keys_of_sanitized].
    intros key Hk. now apply dangerous_key_spec. }
  split; [exact H | rewrite (sanitizeObject_same v) at 1; exact H].
Qed.

(** The sanitiser removes nothing else: a value whose keys are all safe
    comes back as it is. *)
Lemma sanitizeObject_safe_id (v : value) :
  Forall (fun key => dangerous_key key = false) (keys_of v) ->
  Customers.sanitizeObject v = v.
Proof.
  induction v as [ | | b | n | s | items IH | props IH] using value_ind;
    simpl; trivial; intros H; f_equal.
  - induction IH as [|x xs Hx _ IHxs]; simpl in *; trivial.
    apply Forall_app in H. destruct H as [H1 H2].
    now rewrite Hx, IHxs.
  - induction IH as [|[k x] ps Hx _ IHps]; simpl in *; trivial.
    inversion H as [|? ? Hk H']; subst.
    apply Forall_app in H'. destruct H' as [H1 H2].
    now rewrite Hk, Hx, IHps.
Qed.

Lemma sanitizeObject_example :
  Customers.sanitizeObject
    (VObj [(js "$where", VStr (js "1"));
           (js "name", VObj [(js "$gt", VStr []); (js "first", VStr (js "Ann"))]);
           (js "a.b", VNum (Fin 1));
           (js "roles", VArr [VObj [(js "$ne", VNull); (js "id", VNum (Fin 2))]])])
  = VObj [(js "name", VObj [(js "first", VStr (js "Ann"))]);
          (js "roles", VArr [VObj [(js "id", VNum (Fin 2))]])].
Proof. reflexivity. Qed.

Lemma keys_of_strings (l : list jsstring) : keys_of (VArr (map VStr l)) = [].
Proof. simpl. induction l as [|s r IH]; simpl; trivial. Qed.

Lemma keys_of_raw_prop (key : string) (v : RawFieldValue) :
  dangerous_key (js key) = false ->
  Forall (fun k => dangerous_key k = false)
         (flat_map (fun kv : jsstring * value => let '(k, x) := kv in k :: keys_of x)
                   (raw_prop key v)).
Proof.
  intros Hk. destruct v as [|s|l]; simpl; try constructor; trivial.
  change (flat_map keys_of (map VStr l)) with (keys_of (VArr (map VStr l))).
  rewrite keys_of_strings. constructor.
Qed.

(** A query bag of the declared type passes [sanitizeObject] unchanged. *)
Lemma sanitizeObject_query_bag (q : CustomerQueryParams) :
  Customers.sanitizeObject (customer_query_value q) = customer_query_value q.
Proof.
  apply sanitizeObject_safe_id. unfold customer_query_value.
  cbn [keys_of]. rewrite !flat_map_app.
  repeat (apply Forall_app; split); apply keys_of_raw_prop; reflexivity.
Qed.

(* ------------------------------------------------------------------ *)
(** ** Rounding to binary64 on integers *)

Lemma two_pow (e : Z) : 0 <= e -> two e = 2 ^ e.
Proof. intros H. unfold two. now rewrite Z.max_r. Qed.

Lemma two_one (e : Z) : e <= 0 -> two e = 1.
Proof. intros H. unfold two. now rewrite Z.max_l. Qed.

Lemma two_pos (e : Z) : 0 < two e.
Proof. unfold two. apply Z.pow_pos_nonneg; lia. Qed.

Lemma Qred_int (z : Z) : Qred (z # 1) = z # 1.
Proof.
  unfold Qred.
  generalize (Z.ggcd_gcd z 1) (Z.ggcd_correct_divisors z 1).
  destruct (Z.ggcd z 1) as (g, (a, b)). simpl.
  rewrite Z.gcd_1_r. intros -> [Ha Hb].
  rewrite Z.mul_1_l in Ha, Hb. now subst.
Qed.

Lemma Qred_scaled (n k : Z) : 0 < k -> Qred (n * k # Z.to_pos k) = n # 1.
Proof.
  intros Hk. rewrite <- Qred_int. apply Qred_complete.
  unfold Qeq. simpl. rewrite Z2Pos.id by exact Hk. lia.
Qed.

Lemma round_half_even_exact (n : Z) : round_half_even n 1 = n.
Proof.
  unfold round_half_even. rewrite Z.mod_1_r, Z.div_1_r. reflexivity.
Qed.

Lemma round_half_even_nonneg (n d : Z) : 0 <= n -> 0 < d -> 0 <= round_half_even n d.
Proof.
  intros Hn Hd. unfold round_half_even.
  pose proof (Z.div_pos n d Hn Hd).
  destruct (2 * (n mod d) <? d); [lia|].
  destruct (d <? 2 * (n mod d)); [lia|].
  destruct (Z.even (n / d)); lia.
Qed.

Lemma floor_log2_int (n : Z) : 0 < n -> floor_log2 n 1 = Z.log2 n.
Proof.
  intros Hn. unfold floor_log2. change (Z.log2 1) with 0. rewrite Z.sub_0_r.
  pose proof (Z.log2_nonneg n) as HL.
  rewrite (two_pow _ HL), two_one by lia.
  destruct (Z.log2_spec n Hn) as [Hlo _].
  destruct (Z.leb_spec (1 * 2 ^ Z.log2 n) (n * 1)); [reflexivity | lia].
Qed.

(** An integer below 2^52 is its own rounding. *)
Lemma round_pos_below (n : Z) : 0 < n -> Z.log2 n < 52 -> round_pos n 1 = Fin (n # 1).
Proof.
  intros Hn HL. unfold round_pos. rewrite (floor_log2_int n Hn).
  pose proof (Z.log2_nonneg n).
  rewrite Z.max_l by lia.
  set (E := Z.log2 n - 52).
  destruct (Z.leb_spec 0 E); [lia|].
  rewrite (two_one E) by lia. rewrite Z.mul_1_l, round_half_even_exact.
  now rewrite Qred_scaled by apply two_pos.
Qed.

(** From 2^52 on the rounding of an integer is an integer or infinite. *)
Lemma round_pos_above (n : Z) :
  0 < n -> 52 <= Z.log2 n ->
  round_pos n 1 = Infinity false \/ exists z, 0 <= z /\ round_pos n 1 = Fin (z # 1).
Proof.
  intros Hn HL. unfold round_pos. rewrite (floor_log2_int n Hn).
  rewrite Z.max_l by lia.
  set (E := Z.log2 n - 52).
  destruct (Z.leb_spec 0 E); [|lia].
  set (m := round_half_even _ _).
  destruct (two 1024 <=? m * two E); [now left | right].
  exists (m * two E). split; [|reflexivity].
  apply Z.mul_nonneg_nonneg; [|pose proof (two_pos E); lia].
  apply round_half_even_nonneg.
  - pose proof (two_pos (- E)). lia.
  - pose proof (two_pos E). lia.
Qed.

Lemma round_pos_int (n : Z) :
  0 < n ->
  round_pos n 1 = Infinity false \/ exists z, 0 <= z /\ round_pos n 1 = Fin (z # 1).
Proof.
  intros Hn. destruct (Z.lt_ge_cases (Z.log2 n) 52).
  - right. exists n. split; [lia | now apply round_pos_below].
  - now apply round_pos_above.
Qed.

(** Every integer up to 2^53 is a binary64 value. *)
Lemma round_pos_safe (n : Z) : 0 < n <= 2 ^ 53 -> round_pos n 1 = Fin (n # 1).
Proof.
  intros [Hn Hmax]. destruct (Z.lt_ge_cases (Z.log2 n) 52) as [HL|HL].
  - now apply round_pos_below.
  - assert (HL' : Z.log2 n <= 53).
    { change 53 with (Z.log2 (2 ^ 53)). now apply Z.log2_le_mono. }
    assert (Hcase : Z.log2 n = 52 \/ n = 2 ^ 53).
    { destruct (Z.eq_dec (Z.log2 n) 52) as [|Hne]; [now left | right].
      assert (E53 : Z.log2 n = 53) by lia.
      destruct (Z.log2_spec n Hn) as [Hlo _]. rewrite E53 in Hlo. lia. }
    destruct Hcase as [E52 | ->]; [|vm_compute; reflexivity].
    unfold round_pos. rewrite (floor_log2_int n Hn), E52.
    change (Z.max (52 - 52) (-1074)) with 0.
    change (two 0) with 1. change (two (- 0)) with 1.
    rewrite !Z.mul_1_r, round_half_even_exact.
    change (0 <=? 0) with true. cbv iota.
    assert (Hlt : n < two 1024).
    { apply Z.le_lt_trans with (2 ^ 53); trivial. vm_compute. reflexivity. }
    destruct (Z.leb_spec (two 1024) n); [lia | reflexivity].
Qed.

Lemma num_neg_of_Z (z : Z) : num_neg (of_Z z) = of_Z (- z).
Proof.
  unfold num_neg, of_Z. change (- (z # 1))%Q with (- z # 1). now rewrite Qred_int.
Qed.

Lemma round64_int (z : Z) :
  (exists s, round64 (z # 1) = Infinity s)
  \/ exists z', round64 (z # 1) = of_Z z' /\ Z.sgn z * z' >= 0.
Proof.
  unfold round64. cbn [Qnum Qden]. destruct z as [|p|p].
  - right. exists 0. split; [reflexivity | lia].
  - destruct (round_pos_int (Zpos p)) as [-> | (z' & Hz & ->)]; [lia | | ].
    + left. now exists false.
    + right. exists z'. split; [reflexivity | lia].
  - destruct (round_pos_int (Zpos p)) as [-> | (z' & Hz & ->)]; [lia | | ].
    + left. now exists true.
    + right. exists (- z'). split; [apply num_neg_of_Z | lia].
Qed.

Lemma round64_safe (z : Z) : 0 <= z <= 2 ^ 53 -> round64 (z # 1) = of_Z z.
Proof.
  intros Hz. unfold round64. cbn [Qnum Qden]. destruct z as [|p|p]; [reflexivity | | lia].
  now apply round_pos_safe.
Qed.

Lemma isInteger_of_Z (z : Z) : isInteger (of_Z z) = true.
Proof. unfold isInteger, of_Z. now rewrite Qred_int. Qed.

Lemma num_leb_of_Z (a b : Z) : num_leb (of_Z a) (of_Z b) = (a <=? b).
Proof.
  unfold num_leb, of_Z, Qle_bool. cbn [Qnum Qden]. now rewrite !Z.mul_1_r.
Qed.

(* ------------------------------------------------------------------ *)
(** ** The limit normaliser *)

(** [parseInt] gives [NaN], an infinity or an integer. *)
Lemma parseInt_cases (s : jsstring) :
  parseInt s = NaN
  \/ (exists b, parseInt s = Infinity b)
  \/ exists z, parseInt s = of_Z z.
Proof.
  unfold parseInt.
  destruct (match trimStart s with
            | [] => (false, trimStart s)
            | c :: r => if char_is "-" c then (true, r)
                        else if char_is "+" c then (false, r)
                        else (false, trimStart s)
            end) as [neg S1].
  destruct (nonempty (takewhile is_digit S1)); [|now left].
  right.
  destruct (round64_int (digits_value 10 (takewhile is_digit S1)))
    as [(b & ->) | (z & -> & _)].
  - left. destruct neg; [now exists (negb b) | now exists b].
  - right. destruct neg; [exists (- z); apply num_neg_of_Z | now exists z].
Qed.

(** [parseInt] is [NaN] exactly when no digit follows the leading
    white space and the optional sign. *)
Lemma parseInt_nan_iff (s : jsstring) :
  parseInt s = NaN <->
  takewhile is_digit
    (match trimStart s with
     | c :: r => if (char_is "-" c || char_is "+" c)%bool then r else c :: r
     | [] => []
     end) = [].
Proof.
  unfold parseInt.
  destruct (trimStart s) as [|c r]; [simpl; tauto|].
  assert (H : forall (neg : bool) (S1 : jsstring),
             (if nonempty (takewhile is_digit S1)
              then let n := round64 (digits_value 10 (takewhile is_digit S1) # 1) in
                   if neg then num_neg n else n
              else NaN) = NaN <-> takewhile is_digit S1 = []).
  { intros neg S1. destruct (takewhile is_digit S1) as [|x t] eqn:E.
    - simpl. tauto.
    - cbn [nonempty]. split; [|discriminate].
      cbv zeta. destruct (round64_int (digits_value 10 (x :: t))) as [(b & ->) | (z & -> & _)];
        destruct neg; try rewrite num_neg_of_Z; discriminate. }
  destruct (char_is "-" c); [exact (H true r)|].
  destruct (char_is "+" c); [exact (H false r) | exact (H false (c :: r))].
Qed.

(** C1.  For every limit input [v] (absent, a string, an array of
    strings) and every integer default [d], [normalizeLimit v d] is an
    integer that is at most [d]; it is [d] itself when [v] is absent,
    when the text does not parse ([parseInt] gives [NaN]) and when it
    parses to a value that is at most 0.  The function is total: it
    returns a number on every input. *)
Theorem normalizeLimit_capped (v : RawFieldValue) (d : Z) :
  (exists r, normalizeLimit v (of_Z d) = of_Z r /\ r <= d)
  /\ (v = Absent -> normalizeLimit v (of_Z d) = of_Z d)
  /\ (parseInt (limitStr v) = NaN -> normalizeLimit v (of_Z d) = of_Z d)
  /\ (num_leb (parseInt (limitStr v)) (Fin 0) = true ->
      normalizeLimit v (of_Z d) = of_Z d).
Proof.
  unfold normalizeLimit. repeat split.
  - destruct (parseInt_cases (limitStr v)) as [-> | [(b & ->) | (z & ->)]].
    + exists d. split; [reflexivity | lia].
    + exists d. split; [now destruct b | lia].
    + change (Fin 0) with (of_Z 0). cbn [isNaN of_Z orb].
      fold (of_Z z). rewrite num_leb_of_Z.
      destruct (z <=? 0); [exists d; split; [reflexivity | lia]|].
      unfold Math_min. cbn [of_Z]. fold (of_Z z) (of_Z d). rewrite num_leb_of_Z.
      destruct (Z.leb_spec z d); [exists z | exists d]; split; trivial; lia.
  - now intros ->.
  - now intros ->.
  - intros ->. now rewrite orb_true_r.
Qed.

Lemma normalizeLimit_examples :
  normalizeLimit (Single (js "999")) (of_Z 10) = of_Z 10
  /\ normalizeLimit (Single (js "7")) (of_Z 10) = of_Z 7
  /\ normalizeLimit (Single (js "0")) (of_Z 10) = of_Z 10
  /\ normalizeLimit (Single (js "-4")) (of_Z 10) = of_Z 10
  /\ normalizeLimit (Single (js "ten")) (of_Z 10) = of_Z 10
  /\ normalizeLimit (Multiple [js "3"; js "8"]) (of_Z 5) = of_Z 3
  /\ normalizeLimit (Multiple []) (of_Z 5) = of_Z 5
  /\ normalizeLimit Absent (of_Z 5) = of_Z 5.
Proof. repeat split; vm_compute; reflexivity. Qed.

(* ------------------------------------------------------------------ *)
(** ** [Number] on decimal digit strings and [parsePositiveInt] *)

Lemma digit_not_sign (c : char) :
  is_digit c = true -> char_is "+" c = false /\ char_is "-" c = false.
Proof. intros H. split; char_solve. Qed.

Lemma digit_not_radix_letter (c : char) :
  is_digit c = true ->
  (char_is "x" c || char_is "X" c)%bool = false
  /\ (char_is "o" c || char_is "O" c)%bool = false
  /\ (char_is "b" c || char_is "B" c)%bool = false.
Proof. intros H. repeat split; char_solve. Qed.

Lemma nospace_trim (s : jsstring) :
  forallb (fun c => negb (is_space c)) s = true -> trim s = s.
Proof.
  intros H.
  assert (Hfix : forall l, forallb (fun c => negb (is_space c)) l = true ->
                           dropwhile is_space l = l).
  { intros [|c r] Hl; trivial. simpl in *.
    apply andb_true_iff in Hl. destruct Hl as [Hc _].
    apply negb_true_iff in Hc. now rewrite Hc. }
  apply trim_fixed; apply Hfix; trivial.
  apply forallb_forall. intros c Hin. apply in_rev in Hin.
  rewrite forallb_forall in H. auto.
Qed.

Lemma digits_nospace (s : jsstring) :
  forallb is_digit s = true -> forallb (fun c => negb (is_space c)) s = true.
Proof.
  rewrite !forallb_forall. intros H c Hin.
  now rewrite (digit_not_space c (H c Hin)).
Qed.

Lemma digits_trim (s : jsstring) : forallb is_digit s = true -> trim s = s.
Proof. intros H. now apply nospace_trim, digits_nospace. Qed.

Lemma digits_not_Infinity (c : char) (r : jsstring) :
  is_digit c = true -> jsstring_eqb (c :: r) (js "Infinity") = false.
Proof.
  intros H. unfold jsstring_eqb.
  destruct (list_eq_dec N.eq_dec (c :: r) (js "Infinity")) as [E|]; trivial.
  injection E as -> _. discriminate.
Qed.

Lemma decimal_value_0 (m : Z) : decimal_value m 0 = m # 1.
Proof. unfold decimal_value. simpl. now rewrite Z.mul_1_r. Qed.

Lemma StrUnsignedDecimalLiteral_digits (s : jsstring) :
  s <> [] -> forallb is_digit s = true ->
  StrUnsignedDecimalLiteral s = round64 (digits_value 10 s # 1).
Proof.
  intros Hs Hd. destruct s as [|c r]; [congruence|].
  pose proof Hd as Hd'. simpl in Hd'. apply andb_true_iff in Hd'.
  destruct Hd' as [Hc _].
  unfold StrUnsignedDecimalLiteral.
  rewrite (digits_not_Infinity c r Hc).
  rewrite (takewhile_all _ _ Hd), (dropwhile_all _ _ Hd).
  cbn [nonempty orb ExponentPart List.length Z.of_nat].
  now rewrite app_nil_r, decimal_value_0.
Qed.

(** On a run of decimal digits [Number] is the rounding of the integer
    the digits denote. *)
Lemma StringToNumber_digits (s : jsstring) :
  s <> [] -> forallb is_digit s = true ->
  StringToNumber s = round64 (digits_value 10 s # 1).
Proof.
  intros Hs Hd. unfold StringToNumber. rewrite (digits_trim s Hd).
  rewrite <- (StrUnsignedDecimalLiteral_digits s Hs Hd).
  destruct s as [|c r]; [congruence|].
  pose proof Hd as Hd'. simpl in Hd'. apply andb_true_iff in Hd'.
  destruct Hd' as [Hc Hr].
  assert (Hnd : NonDecimalIntegerLiteral (c :: r) = None).
  { destruct r as [|p r']; trivial. simpl in Hr.
    apply andb_true_iff in Hr. destruct Hr as [Hp _].
    destruct (digit_not_radix_letter p Hp) as (Hx & Ho & Hb).
    unfold NonDecimalIntegerLiteral. rewrite Hx, Ho, Hb.
    now destruct (char_is "0" c). }
  rewrite Hnd. unfold StrDecimalLiteral.
  now destruct (digit_not_sign c Hc) as [-> ->].
Qed.

(** With a minus sign in front it is the opposite. *)
Lemma StringToNumber_minus_digits (s : jsstring) :
  s <> [] -> forallb is_digit s = true ->
  StringToNumber (ch "-" :: s) = num_neg (round64 (digits_value 10 s # 1)).
Proof.
  intros Hs Hd. unfold StringToNumber.
  rewrite nospace_trim by (simpl; now rewrite digits_nospace).
  rewrite <- (StrUnsignedDecimalLiteral_digits s Hs Hd).
  destruct s as [|c r]; [congruence | reflexivity].
Qed.

Lemma digits_value_nonneg (s : jsstring) : 0 <= digits_value 10 s.
Proof.
  unfold digits_value.
  assert (H : forall l acc, 0 <= acc ->
            0 <= fold_left (fun a c => a * 10 + match digit_value c with
                                                | Some v => v
                                                | None => 0
                                                end) l acc).
  { induction l as [|c r IH]; intros acc Hacc; simpl; trivial.
    apply IH. unfold digit_value.
    destruct (is_digit c) eqn:E1.
    - unfold is_digit, char_in in E1. bool_hyps. cbv [ch N_of_ascii] in *. simpl in *. lia.
    - destruct (char_in (ch "a") (ch "f") c) eqn:E2.
      + unfold char_in in E2. bool_hyps. cbv [ch] in *. simpl in *. lia.
      + destruct (char_in (ch "A") (ch "F") c) eqn:E3; [|lia].
        unfold char_in in E3. bool_hyps. cbv [ch] in *. simpl in *. lia. }
  apply H. lia.
Qed.

Lemma round64_nonneg (z : Z) :
  0 <= z ->
  round64 (z # 1) = Infinity false
  \/ exists z', 0 <= z' /\ round64 (z # 1) = of_Z z'.
Proof.
  intros Hz. unfold round64. cbn [Qnum Qden]. destruct z as [|p|p]; [| |lia].
  - right. exists 0. split; [lia | reflexivity].
  - destruct (round_pos_int (Zpos p)) as [-> | (z' & Hz' & ->)]; [lia | now left |].
    right. now exists z'.
Qed.

Lemma StringToNumber_safe_digits (s : jsstring) :
  s <> [] -> forallb is_digit s = true -> 0 <= digits_value 10 s <= 2 ^ 53 ->
  StringToNumber s = of_Z (digits_value 10 s).
Proof.
  intros Hs Hd Hv. rewrite (StringToNumber_digits s Hs Hd). now apply round64_safe.
Qed.

(** C9 as the specification words it (failure on every string that is
    no positive integer) does not hold on the empty string: it denotes
    no positive integer ([Number] gives 0 on it), yet it is read as an absent
    value and the default comes back instead of a failure. *)
Lemma parsePositiveInt_empty_string :
  num_leb (StringToNumber []) (Fin 0) = true
  /\ parsePositiveInt (Some []) (Some (of_Z 1)) = Ok (Some (of_Z 1))
  /\ parsePositiveInt (Some []) None = Ok None.
Proof. repeat split. Qed.

(** A fraction too fine for binary64 rounds to an integer and passes. *)
Lemma parsePositiveInt_rounded_fraction :
  parsePositiveInt (Some (js "1.0000000000000000001")) None = Ok (Some (of_Z 1)).
Proof. vm_compute. reflexivity. Qed.

(** C9, amended.  For every non-empty string [s]: when [s] is a run of
    decimal digits denoting an integer from 1 to 2^53, [Number(s)] is
    that integer and [parsePositiveInt(s)] returns it; in general
    [parsePositiveInt(s)] returns [Number(s)] when that number is an
    integer above 0, and fails with InvalidParameter citing [s] when
    [Number(s)] is not an integer ([NaN], infinite, fractional) or is at
    most 0.  (The empty string is read as absent: the default comes
    back.) *)
Theorem parsePositiveInt_nonempty (s : jsstring) (d : option number) :
  s <> [] ->
  (forallb is_digit s = true -> 0 < digits_value 10 s <= 2 ^ 53 ->
     StringToNumber s = of_Z (digits_value 10 s)
     /\ parsePositiveInt (Some s) d = Ok (Some (of_Z (digits_value 10 s))))
  /\ (isInteger (StringToNumber s) = true /\ num_leb (StringToNumber s) (Fin 0) = false ->
      parsePositiveInt (Some s) d = Ok (Some (StringToNumber s)))
  /\ (isInteger (StringToNumber s) = false \/ num_leb (StringToNumber s) (Fin 0) = true ->
      parsePositiveInt (Some s) d = Throw (BadRequestError (MsgPositiveInt s))
      /\ InvalidParameter (MsgPositiveInt s)).
Proof.
  intros Hs. destruct s as [|c r]; [congruence|].
  set (s := c :: r) in *. unfold parsePositiveInt. fold s.
  repeat split.
  - apply StringToNumber_safe_digits; trivial. lia.
  - rewrite (StringToNumber_safe_digits s) by (trivial; lia).
    rewrite isInteger_of_Z. change (Fin 0) with (of_Z 0).
    rewrite num_leb_of_Z.
    destruct (Z.leb_spec (digits_value 10 s) 0); [lia | reflexivity].
  - intros [-> ->]. reflexivity.
  - destruct H as [-> | ->]; [reflexivity | now rewrite orb_true_r].
Qed.

Lemma parsePositiveInt_examples :
  js "42" <> []
  /\ parsePositiveInt (Some (js "42")) None = Ok (Some (of_Z 42))
  /\ parsePositiveInt (Some (js "1.5")) None
     = Throw (BadRequestError (MsgPositiveInt (js "1.5"))).
Proof.
  assert (H42 : js "42" <> []) by discriminate.
  assert (H15 : js "1.5" <> []) by discriminate.
  split; [exact H42|]. split.
  - apply (proj1 (parsePositiveInt_nonempty (js "42") None H42)).
    + reflexivity.
    + vm_compute. split; [reflexivity | discriminate].
  - apply (proj2 (proj2 (parsePositiveInt_nonempty (js "1.5") None H15))).
    left. vm_compute. reflexivity.
Defined.

(** More of the table: zero, a negative value, text that is no number
    and an infinite value fail; white space around digits and other
    spellings of an integer pass. *)
Lemma parsePositiveInt_table :
  parsePositiveInt (Some (js "0")) None = Throw (BadRequestError (MsgPositiveInt (js "0")))
  /\ parsePositiveInt (Some (js "-3")) None
     = Throw (BadRequestError (MsgPositiveInt (js "-3")))
  /\ parsePositiveInt (Some (js "abc")) None
     = Throw (BadRequestError (MsgPositiveInt (js "abc")))
  /\ parsePositiveInt (Some (js "Infinity")) None
     = Throw (BadRequestError (MsgPositiveInt (js "Infinity")))
  /\ parsePositiveInt (Some (js " 7 ")) None = Ok (Some (of_Z 7))
  /\ parsePositiveInt (Some (js "1e3")) None = Ok (Some (of_Z 1000))
  /\ parsePositiveInt (Some (js "0x10")) None = Ok (Some (of_Z 16))
  /\ parsePositiveInt None (Some (of_Z 1)) = Ok (Some (of_Z 1)).
Proof. repeat split; vm_compute; reflexivity. Qed.

(** Whatever their length, a run of digits denoting 0 and a run of
    digits behind a minus sign fail. *)
Lemma parsePositiveInt_zero_digits (s : jsstring) (d : option number) :
  s <> [] -> forallb is_digit s = true -> digits_value 10 s = 0 ->
  parsePositiveInt (Some s) d = Throw (BadRequestError (MsgPositiveInt s)).
Proof.
  intros Hs Hd H0. destruct s as [|c r]; [congruence|].
  unfold parsePositiveInt.
  rewrite (StringToNumber_digits (c :: r) Hs Hd), H0. reflexivity.
Qed.

Lemma parsePositiveInt_minus_digits (s : jsstring) (d : option number) :
  s <> [] -> forallb is_digit s = true ->
  parsePositiveInt (Some (ch "-" :: s)) d
  = Throw (BadRequestError (MsgPositiveInt (ch "-" :: s))).
Proof.
  intros Hs Hd. unfold parsePositiveInt.
  rewrite (StringToNumber_minus_digits s Hs Hd).
  destruct (round64_nonneg (digits_value 10 s) (digits_value_nonneg s))
    as [-> | (z & Hz & ->)].
  - reflexivity.
  - rewrite num_neg_of_Z, isInteger_of_Z. change (Fin 0) with (of_Z 0).
    rewrite num_leb_of_Z.
    destruct (Z.leb_spec (- z) 0); [reflexivity | lia].
Qed.

(* ------------------------------------------------------------------ *)
(** ** The order normaliser *)

(** C8.  The bag [{page: "2", limit: "999"}] with default limit 10
    normalises to page 2, limit 10 (the request for 999 is capped at the
    default), sort field [createdAt], descending order, and no status,
    amount range, date range or search. *)
Theorem normalizeOrderQueryParams_scenario (Date_parse : jsstring -> Date) :
  normalizeOrderQueryParams Date_parse
    {| oq_page := Single (js "2"); oq_limit := Single (js "999");
       oq_sortField := Absent; oq_sortOrder := Absent; oq_status := Absent;
       oq_totalAmountFrom := Absent; oq_totalAmountTo := Absent;
       oq_orderDateFrom := Absent; oq_orderDateTo := Absent; oq_search := Absent |}
    (of_Z 10)
  = Ok {| no_page := of_Z 2; no_limit := of_Z 10;
          no_sortField := js "createdAt"; no_sortOrder := desc;
          no_status := None;
          no_totalAmountFrom := None; no_totalAmountTo := None;
          no_orderDateFrom := None; no_orderDateTo := None;
          no_search := None |}.
Proof. vm_compute. reflexivity. Qed.

Lemma normalizeOrderQueryParams_bad_sortOrder (Date_parse : jsstring -> Date) :
  normalizeOrderQueryParams Date_parse
    {| oq_page := Absent; oq_limit := Absent;
       oq_sortField := Absent; oq_sortOrder := Single (js "up"); oq_status := Absent;
       oq_totalAmountFrom := Absent; oq_totalAmountTo := Absent;
       oq_orderDateFrom := Absent; oq_orderDateTo := Absent; oq_search := Absent |}
    (of_Z 10)
  = Throw (BadRequestError MsgSortOrder).
Proof. vm_compute. reflexivity. Qed.

(* ------------------------------------------------------------------ *)
(** ** Date upper bounds *)

Section CustomerQueries.
Context {ObjectId : Type}.
Variable Order_find_by_address : RegExp -> list ObjectId.
Variable escapeRegExp : jsstring -> jsstring.
Variable LocalTZA : Z -> bool -> Z.



End CustomerQueries.

(** With a fixed offset from UTC, the end of day is 23:59:59.999 local
    time, as long as it stays a valid time value. *)
Lemma endOfDay_local_time (offset t : Z) :
  Z.abs (MakeDate (Day (t + offset)) end_of_day - offset) <= 8640000000000000 ->
  local_time_of_day (fixed_zone offset)
    (Customers.endOfDay (fixed_zone offset) (TimeValue t)) = Some end_of_day.
Proof.
  intros Hclip.
  unfold Customers.endOfDay, setHours, UTC, LocalTime, fixed_zone.
  change (MakeTime 23 59 59 999) with end_of_day.
  unfold TimeClip.
  destruct (Z.ltb_spec 8640000000000000
              (Z.abs (MakeDate (Day (t + offset)) end_of_day - offset))); [lia|].
  unfold local_time_of_day, LocalTime, TimeWithinDay, MakeDate. f_equal.
  replace (Day (t + offset) * msPerDay + end_of_day - offset + offset)
    with (end_of_day + Day (t + offset) * msPerDay) by lia.
  rewrite Z.mod_add by (unfold msPerDay; lia).
  reflexivity.
Qed.

Section OrderQueries.
Variable escapeRegExp : jsstring -> jsstring.

(** [getOrders] hands both date bounds to the filter as they came, and
    sorts by whatever non-empty field name it was given. *)
Lemma orders_pipeline (p : NormalizedOrderParams) (pipeline : Orders.Pipeline) :
  Orders.buildQuery escapeRegExp p = Ok pipeline ->
  Orders.f_createdAt (Orders.p_match pipeline)
    = range_of (no_orderDateFrom p) (no_orderDateTo p)
  /\ Orders.p_sort pipeline
     = if nonempty (no_sortField p)
       then [(no_sortField p, direction (no_sortOrder p))] else [].
Proof.
  unfold Orders.buildQuery. intros H.
  destruct (no_status p) as [[|c r]|];
    destruct (no_search p) as [[|c' r']|]; cbn [bind] in H;
    repeat match type of H with
           | context [if ?b then _ else _] => destruct b; cbn [bind] in H
           end;
    try discriminate; injection H as <-; split; reflexivity.
Qed.
End OrderQueries.

(** C3 (orders).  For [GET /orders?orderDateTo=2024-01-15] the filter
    gets [$lte] at the parsed instant itself, local midnight on a UTC
    host, where the customer controllers would put 23:59:59.999 of that
    day. *)
Theorem getOrders_upper_bound_not_extended (escapeRegExp : jsstring -> jsstring) :
  exists pipeline,
    Orders.getOrders escapeRegExp parse_2024_01_15
      {| oq_page := Absent; oq_limit := Absent; oq_sortField := Absent;
         oq_sortOrder := Absent; oq_status := Absent;
         oq_totalAmountFrom := Absent; oq_totalAmountTo := Absent;
         oq_orderDateFrom := Absent; oq_orderDateTo := Single (js "2024-01-15");
         oq_search := Absent |}
    = Orders.Aggregate pipeline
    /\ Orders.f_createdAt (Orders.p_match pipeline)
       = Some {| gte := None; lte := Some (TimeValue 1705276800000) |}
    /\ local_time_of_day utc_zone (TimeValue 1705276800000) = Some 0
    /\ Customers.endOfDay utc_zone (TimeValue 1705276800000) = TimeValue 1705363199999
    /\ local_time_of_day utc_zone (TimeValue 1705363199999) = Some end_of_day.
Proof.
  eexists. split; [vm_compute; reflexivity|].
  repeat split.
Qed.

(* ------------------------------------------------------------------ *)
(** ** Sort fields *)

(** C4 (orders).  For [GET /orders?sortField=password] the sort handed
    to the aggregation is keyed by [password]: [getOrders] has no
    allow-list and takes the field name as it is. *)
Theorem getOrders_sortField_unchecked
  (escapeRegExp : jsstring -> jsstring) (Date_parse : jsstring -> Date) :
  exists pipeline,
    Orders.getOrders escapeRegExp Date_parse
      {| oq_page := Absent; oq_limit := Absent;
         oq_sortField := Single (js "password");
         oq_sortOrder := Absent; oq_status := Absent;
         oq_totalAmountFrom := Absent; oq_totalAmountTo := Absent;
         oq_orderDateFrom := Absent; oq_orderDateTo := Absent;
         oq_search := Absent |}
    = Orders.Aggregate pipeline
    /\ Orders.p_sort pipeline = [(js "password", -1)]
    /\ ~ In (js "password") Customers.allowedSortFields.
Proof.
  eexists. split; [vm_compute; reflexivity|].
  split; [reflexivity|].
  intros H. vm_compute in H. intuition discriminate.
Qed.

(* ------------------------------------------------------------------ *)
(** ** A missing search term in the customer controllers *)

Lemma sanitizeSearch_absent_iff (v : option jsstring) :
  sanitizeSearch v = Ok None <-> v = None \/ exists s, v = Some s /\ trim s = [].
Proof.
  split.
  - destruct v as [s|]; [|now left]. intros H. right. exists s. split; trivial.
    destruct s as [|c r]; trivial.
    rewrite sanitizeSearch_nonempty in H by discriminate.
    revert H. destruct (trim (c :: r)) as [|x t]; trivial.
    cbv zeta. destruct (allowed_test (x :: t)); discriminate.
  - intros [-> | (s & -> & Hs)]; trivial.
    destruct s as [|c r]; trivial.
    rewrite sanitizeSearch_nonempty by discriminate. now rewrite Hs.
Qed.

(** C10.  When the normalised search term is absent, [getCustomers] of
    controllers/customers ends in [next(new NotFoundError(...))] and
    builds no listing, while the near-duplicate controller lists the
    customers with a filter that has no [$or]. *)
Theorem getCustomers_search_mandatory
  (ObjectId : Type) (Order_find_by_address : RegExp -> list ObjectId)
  (escapeRegExp : jsstring -> jsstring) (Date_parse : jsstring -> Date)
  (LocalTZA : Z -> bool -> Z)
  (query : CustomerQueryParams) (p : NormalizedCustomerParams) :
  normalizeCustomerQueryParams Date_parse query (Fin 10) = Ok p ->
  nc_search p = None ->
  Customers.getCustomers Order_find_by_address escapeRegExp Date_parse LocalTZA query
    = Customers.Next (NotFoundError MsgCustomerSearch)
  /\ exists filters options,
       CustomersAlt.getCustomers Order_find_by_address Date_parse LocalTZA query
         = Customers.Find filters options
       /\ Customers.f_or filters = None.
Proof.
  intros Hp Hs.
  unfold Customers.getCustomers, CustomersAlt.getCustomers. rewrite Hp.
  unfold Customers.buildQuery, CustomersAlt.buildQuery. rewrite Hs.
  split; [reflexivity|].
  do 2 eexists. split; reflexivity.
Qed.

Lemma getCustomers_without_search :
  Customers.getCustomers no_orders escape_meta parse_2024_01_15 utc_zone no_customer_params
    = Customers.Next (NotFoundError MsgCustomerSearch)
  /\ exists filters options,
       CustomersAlt.getCustomers no_orders parse_2024_01_15 utc_zone no_customer_params
         = Customers.Find filters options
       /\ Customers.f_or filters = None.
Proof.
  apply (getCustomers_search_mandatory Z no_orders escape_meta parse_2024_01_15 utc_zone
           no_customer_params
           {| nc_page := Fin 1; nc_limit := Fin 10;
              nc_sortField := js "createdAt"; nc_sortOrder := desc;
              nc_registrationDateFrom := None; nc_registrationDateTo := None;
              nc_lastOrderDateFrom := None; nc_lastOrderDateTo := None;
              nc_totalAmountFrom := None; nc_totalAmountTo := None;
              nc_orderCountFrom := None; nc_orderCountTo := None;
              nc_search := None |}).
  - vm_compute. reflexivity.
  - reflexivity.
Defined.

(** The same holds for a search made of white space only, and the
    rejecting variant also refuses a search of more than 50 units. *)
Lemma getCustomers_blank_search :
  Customers.getCustomers no_orders escape_meta parse_2024_01_15 utc_zone
    {| cq_page := Absent; cq_limit := Absent; cq_sortField := Absent;
       cq_sortOrder := Absent;
       cq_registrationDateFrom := Absent; cq_registrationDateTo := Absent;
       cq_lastOrderDateFrom := Absent; cq_lastOrderDateTo := Absent;
       cq_totalAmountFrom := Absent; cq_totalAmountTo := Absent;
       cq_orderCountFrom := Absent; cq_orderCountTo := Absent;
       cq_search := Single (js "   ") |}
  = Customers.Next (NotFoundError MsgCustomerSearch).
Proof. vm_compute. reflexivity. Qed.

Lemma buildQuery_long_search
  (ObjectId : Type) (Order_find_by_address : RegExp -> list ObjectId)
  (escapeRegExp : jsstring -> jsstring) (LocalTZA : Z -> bool -> Z)
  (p : NormalizedCustomerParams) (s : jsstring) :
  nc_search p = Some s -> (50 < List.length s)%nat ->
  Customers.buildQuery Order_find_by_address escapeRegExp LocalTZA p
    = Customers.Next (NotFoundError MsgCustomerSearch).
Proof.
  intros Hs Hlen. unfold Customers.buildQuery. rewrite Hs.
  destruct s as [|c r]; trivial.
  destruct (Nat.leb_spec (List.length (c :: r)) 50); [lia | reflexivity].
Qed.

(* ------------------------------------------------------------------ *)
(** ** What the scalar parsers return *)

Lemma Qred_Qred (q : Q) : Qred (Qred q) = Qred q.
Proof. apply Qred_complete, Qred_correct. Qed.

Lemma num_neg_canonical (x : number) : canonical (num_neg x).
Proof. destruct x; cbn [num_neg canonical]; trivial. apply Qred_Qred. Qed.

Lemma round_pos_canonical (n d : Z) : canonical (round_pos n d).
Proof.
  unfold round_pos.
  set (E := Z.max (floor_log2 n d - 52) (-1074)).
  set (m := round_half_even _ _).
  destruct (0 <=? E).
  - destruct (two 1024 <=? m * two E); cbn [canonical]; trivial. apply Qred_int.
  - cbn [canonical]. apply Qred_Qred.
Qed.

Lemma round64_canonical (q : Q) : canonical (round64 q).
Proof.
  unfold round64. destruct (Qnum q).
  - reflexivity.
  - apply round_pos_canonical.
  - apply num_neg_canonical.
Qed.

Lemma StrUnsignedDecimalLiteral_canonical (r : jsstring) :
  canonical (StrUnsignedDecimalLiteral r).
Proof.
  unfold StrUnsignedDecimalLiteral.
  destruct (jsstring_eqb r (js "Infinity")); [exact I|].
  destruct (match dropwhile is_digit r with
            | [] => ([], dropwhile is_digit r)
            | c :: r' =>
                if char_is "." c
                then (takewhile is_digit r', dropwhile is_digit r')
                else ([], dropwhile is_digit r)
            end) as [fp r2].
  destruct (nonempty (takewhile is_digit r) || nonempty fp)%bool; [|exact I].
  destruct (ExponentPart r2); [apply round64_canonical | exact I].
Qed.

Lemma StringToNumber_canonical (s : jsstring) : canonical (StringToNumber s).
Proof.
  unfold StringToNumber. destruct (trim s) as [|c r]; [reflexivity|].
  destruct (NonDecimalIntegerLiteral (c :: r)) as [x|] eqn:E.
  - unfold NonDecimalIntegerLiteral in E.
    destruct r as [|p r']; [discriminate|].
    destruct (char_is "0" c); [|discriminate].
    destruct (if (char_is "x" p || char_is "X" p)%bool then Some 16
              else if (char_is "o" p || char_is "O" p)%bool then Some 8
              else if (char_is "b" p || char_is "B" p)%bool then Some 2
              else None) as [R|]; [|discriminate].
    injection E as <-.
    destruct (all_digits R r'); [apply round64_canonical | exact I].
  - unfold StrDecimalLiteral.
    destruct (char_is "+" c); [apply StrUnsignedDecimalLiteral_canonical|].
    destruct (char_is "-" c);
      [apply num_neg_canonical | apply StrUnsignedDecimalLiteral_canonical].
Qed.

(** A canonical number that [Number.isInteger] accepts is an integer. *)
Lemma isInteger_canonical (x : number) :
  canonical x -> isInteger x = true -> exists z, x = of_Z z.
Proof.
  destruct x as [| |[n d]]; cbn [canonical isInteger]; try discriminate.
  intros Hc Hi. rewrite Hc in Hi. cbn [Qden] in Hi.
  apply Pos.eqb_eq in Hi. subst d. now exists n.
Qed.

Lemma parsePositiveInt_ok (v : option jsstring) (a0 : Z) (r : option number) :
  1 <= a0 -> parsePositiveInt v (Some (of_Z a0)) = Ok r ->
  exists a, r = Some (of_Z a) /\ 1 <= a.
Proof.
  intros Ha H. unfold parsePositiveInt in H.
  destruct v as [[|c s]|]; try (injection H as <-; now exists a0).
  destruct (isInteger (StringToNumber (c :: s))) eqn:Ei; [|discriminate].
  destruct (num_leb (StringToNumber (c :: s)) (Fin 0)) eqn:El; [discriminate|].
  cbn [negb orb] in H. injection H as <-.
  destruct (isInteger_canonical _ (StringToNumber_canonical (c :: s)) Ei) as (z & Hz).
  rewrite Hz in *. exists z. split; trivial.
  change (Fin 0) with (of_Z 0) in El. rewrite num_leb_of_Z in El.
  destruct (Z.leb_spec z 0); [discriminate | lia].
Qed.

Lemma parseNonNegativeNumber_ok (v : option jsstring) (n : number) :
  parseNonNegativeNumber v = Ok (Some n) ->
  isFinite n = true /\ num_leb (Fin 0) n = true.
Proof.
  unfold parseNonNegativeNumber.
  destruct v as [[|c s]|]; try discriminate.
  destruct (isFinite (StringToNumber (c :: s))) eqn:Ef; [|discriminate].
  destruct (num_ltb (StringToNumber (c :: s)) (Fin 0)) eqn:El; [discriminate|].
  cbn [negb orb]. intros H. injection H as <-. split; trivial.
  destruct (StringToNumber (c :: s)); try discriminate.
  unfold num_ltb in El. now apply negb_false_iff in El.
Qed.

Lemma parseDate_ok (Date_parse : jsstring -> Date) (v : option jsstring) (d : Date) :
  parseDate Date_parse v = Ok (Some d) -> exists t, d = TimeValue t.
Proof.
  unfold parseDate. destruct v as [[|c s]|]; try discriminate.
  destruct (Date_parse (c :: s)) as [|t]; [discriminate|].
  intros H. injection H as <-. now exists t.
Qed.

(** The range of the limit normaliser. *)
Lemma normalizeLimit_between (v : RawFieldValue) (d : Z) :
  1 <= d -> exists r, normalizeLimit v (of_Z d) = of_Z r /\ 1 <= r <= d.
Proof.
  intros Hd. unfold normalizeLimit.
  destruct (parseInt_cases (limitStr v)) as [-> | [(b & ->) | (z & ->)]].
  - exists d. split; [reflexivity | lia].
  - exists d. split; [now destruct b | lia].
  - change (Fin 0) with (of_Z 0). cbn [isNaN of_Z orb].
    fold (of_Z z). rewrite num_leb_of_Z.
    destruct (Z.leb_spec z 0); [exists d; split; [reflexivity | lia]|].
    unfold Math_min. cbn [of_Z]. fold (of_Z z) (of_Z d). rewrite num_leb_of_Z.
    destruct (Z.leb_spec z d); [exists z | exists d]; split; trivial; lia.
Qed.

(** X1.  With an integer default [d] of at least 1, [normalizeLimit]
    returns an integer between 1 and [d] for every input: a page size is
    never zero, negative, fractional or not a number. *)
Theorem normalizeLimit_range (v : RawFieldValue) (d : Z) :
  1 <= d -> exists r, normalizeLimit v (of_Z d) = of_Z r /\ 1 <= r <= d.
Proof. apply normalizeLimit_between. Qed.

Lemma normalizeLimit_range_example :
  1 <= 5 /\ exists r, normalizeLimit (Multiple [js " 3 items"]) (of_Z 5) = of_Z r
                      /\ 1 <= r <= 5.
Proof.
  split; [lia|]. apply (normalizeLimit_range (Multiple [js " 3 items"]) 5). lia.
Defined.

(* ------------------------------------------------------------------ *)
(** ** The shape of a sanitised search text *)

Lemma rev_flat_map {A B} (f : A -> list B) (l : list A) :
  rev (flat_map f l) = flat_map (fun x => rev (f x)) (rev l).
Proof.
  induction l as [|a l IH]; simpl; trivial.
  rewrite rev_app_distr, IH, flat_map_app. simpl. now rewrite app_nil_r.
Qed.

Lemma dropwhile_fixed_head {A} (p : A -> bool) (l : list A) :
  dropwhile p l = l <-> l = [] \/ exists x r, l = x :: r /\ p x = false.
Proof.
  split.
  - intros H. destruct (dropwhile_head p l) as [E | (x & r & E & Hx)]; rewrite H in E.
    + now left.
    + right. now exists x, r.
  - intros [-> | (x & r & -> & Hx)]; simpl; trivial. now rewrite Hx.
Qed.

Lemma escape_meta_cons (c : char) (r : jsstring) :
  escape_meta (c :: r) = (if regex_meta c then [ch "\"; c] else [c]) ++ escape_meta r.
Proof. reflexivity. Qed.

Lemma escape_meta_escaped (t : jsstring) : escaped (escape_meta t).
Proof.
  induction t as [|c r IH]; [constructor|].
  rewrite escape_meta_cons. destruct (regex_meta c) eqn:E; simpl.
  - now apply escaped_meta.
  - now apply escaped_plain.
Qed.

Lemma escape_meta_chars (t : jsstring) :
  forallb allowed_char t = true ->
  forallb (fun c => allowed_char c || char_is "\" c)%bool (escape_meta t) = true.
Proof.
  induction t as [|c r IH]; trivial.
  rewrite escape_meta_cons. simpl. intros H.
  apply andb_true_iff in H. destruct H as [Hc Hr].
  rewrite forallb_app, (IH Hr), andb_true_r.
  destruct (regex_meta c); simpl; rewrite Hc; reflexivity.
Qed.

Lemma escape_meta_keeps (t : jsstring) (c : char) : In c t -> In c (escape_meta t).
Proof.
  intros Hin. unfold escape_meta. apply in_flat_map. exists c. split; trivial.
  destruct (regex_meta c); simpl; auto.
Qed.

Lemma escape_meta_trimmed (t : jsstring) : trim t = t -> trim (escape_meta t) = escape_meta t.
Proof.
  intros Ht.
  assert (H1 : dropwhile is_space t = t) by (rewrite <- Ht; apply trim_start_fixed).
  assert (H2 : dropwhile is_space (rev t) = rev t) by (rewrite <- Ht; apply trim_end_fixed).
  apply trim_fixed; apply dropwhile_fixed_head.
  - apply dropwhile_fixed_head in H1. destruct H1 as [-> | (x & r & -> & Hx)]; [now left|].
    right. rewrite escape_meta_cons. destruct (regex_meta x); simpl.
    + exists (ch "\"). eexists. split; [reflexivity | exact backslash_not_space].
    + exists x. eexists. split; [reflexivity | exact Hx].
  - unfold escape_meta. rewrite rev_flat_map.
    apply dropwhile_fixed_head in H2. destruct H2 as [-> | (x & r & -> & Hx)]; [now left|].
    right. simpl. destruct (regex_meta x); simpl; exists x; eexists; split;
      try reflexivity; exact Hx.
Qed.

Lemma sanitizeSearch_ok (v : option jsstring) (out : jsstring) :
  sanitizeSearch v = Ok (Some out) ->
  exists raw, v = Some raw /\ trim raw <> []
              /\ forallb allowed_char (trim raw) = true
              /\ out = escape_meta (trim raw).
Proof.
  destruct v as [[|c s]|]; try discriminate.
  rewrite sanitizeSearch_nonempty by discriminate.
  destruct (trim (c :: s)) as [|x t] eqn:E; [discriminate|].
  cbv zeta. unfold allowed_test. cbn [nonempty andb].
  destruct (forallb allowed_char (x :: t)) eqn:Ha; [|discriminate].
  intros H. injection H as <-.
  exists (c :: s). rewrite E. repeat split; trivial. discriminate.
Qed.

Lemma sanitizeSearch_shape (v : option jsstring) (out : jsstring) :
  sanitizeSearch v = Ok (Some out) -> search_shape out.
Proof.
  intros H. destruct (sanitizeSearch_ok v out H) as (raw & _ & Hne & Hall & ->).
  repeat split.
  - destruct (trim raw) as [|x t]; [congruence|].
    rewrite escape_meta_cons. destruct (regex_meta x); discriminate.
  - apply escape_meta_trimmed, trim_idem.
  - now apply escape_meta_chars.
  - apply escape_meta_escaped.
Qed.

(* ------------------------------------------------------------------ *)
(** ** Reading a normalised record back *)

Ltac bind_ok H :=
  repeat match type of H with
         | bind ?r _ = Ok _ =>
             let E := fresh "E" in
             destruct r eqn:E; cbn [bind] in H; [|discriminate H]
         end.

Ltac inner_ok :=
  repeat match goal with
         | E : bind (getSingleString ?x) _ = Ok _ |- _ =>
             destruct (getSingleString x) eqn:?; cbn [bind] in E; [|discriminate E]
         end.

Lemma normalizeOrderQueryParams_inv (Date_parse : jsstring -> Date)
  (q : OrderQueryParams) (d : number) (p : NormalizedOrderParams) :
  normalizeOrderQueryParams Date_parse q d = Ok p ->
  exists page vlimit vsort vsearch,
    (v <- getSingleString (oq_page q) ;; parsePositiveInt v (Some (Fin 1))) = Ok page
    /\ no_page p = non_null page
    /\ getSingleString (oq_limit q) = Ok vlimit
    /\ no_limit p = normalizeLimit (of_string vlimit) d
    /\ getSingleString (oq_sortField q) = Ok vsort
    /\ no_sortField p = or_default vsort (js "createdAt")
    /\ (v <- getSingleString (oq_sortOrder q) ;; parseSortOrder v desc) = Ok (no_sortOrder p)
    /\ getSingleString (oq_status q) = Ok (no_status p)
    /\ (v <- getSingleString (oq_totalAmountFrom q) ;; parseNonNegativeNumber v)
       = Ok (no_totalAmountFrom p)
    /\ (v <- getSingleString (oq_totalAmountTo q) ;; parseNonNegativeNumber v)
       = Ok (no_totalAmountTo p)
    /\ (v <- getSingleString (oq_orderDateFrom q) ;; parseDate Date_parse v)
       = Ok (no_orderDateFrom p)
    /\ (v <- getSingleString (oq_orderDateTo q) ;; parseDate Date_parse v)
       = Ok (no_orderDateTo p)
    /\ getSingleString (oq_search q) = Ok vsearch
    /\ sanitizeSearch vsearch = Ok (no_search p).
Proof.
  unfold normalizeOrderQueryParams. intros H. bind_ok H.
  injection H as <-. cbn [no_page no_limit no_sortField no_sortOrder no_status
    no_totalAmountFrom no_totalAmountTo no_orderDateFrom no_orderDateTo no_search].
  clear E E2 E4 E5 E6 E7. inner_ok. injection E0 as <-.
  do 4 eexists. repeat split; try reflexivity; eassumption.
Qed.

Lemma normalizeCustomerQueryParams_inv (Date_parse : jsstring -> Date)
  (q : CustomerQueryParams) (d : number) (p : NormalizedCustomerParams) :
  normalizeCustomerQueryParams Date_parse q d = Ok p ->
  exists page vlimit vsort vsearch,
    (v <- getSingleString (cq_page q) ;; parsePositiveInt v (Some (Fin 1))) = Ok page
    /\ nc_page p = non_null page
    /\ getSingleString (cq_limit q) = Ok vlimit
    /\ nc_limit p = normalizeLimit (of_string vlimit) d
    /\ getSingleString (cq_sortField q) = Ok vsort
    /\ nc_sortField p = or_default vsort (js "createdAt")
    /\ (v <- getSingleString (cq_sortOrder q) ;; parseSortOrder v desc) = Ok (nc_sortOrder p)
    /\ (v <- getSingleString (cq_registrationDateFrom q) ;; parseDate Date_parse v)
       = Ok (nc_registrationDateFrom p)
    /\ (v <- getSingleString (cq_registrationDateTo q) ;; parseDate Date_parse v)
       = Ok (nc_registrationDateTo p)
    /\ (v <- getSingleString (cq_lastOrderDateFrom q) ;; parseDate Date_parse v)
       = Ok (nc_lastOrderDateFrom p)
    /\ (v <- getSingleString (cq_lastOrderDateTo q) ;; parseDate Date_parse v)
       = Ok (nc_lastOrderDateTo p)
    /\ (v <- getSingleString (cq_totalAmountFrom q) ;; parseNonNegativeNumber v)
       = Ok (nc_totalAmountFrom p)
    /\ (v <- getSingleString (cq_totalAmountTo q) ;; parseNonNegativeNumber v)
       = Ok (nc_totalAmountTo p)
    /\ (v <- getSingleString (cq_orderCountFrom q) ;; parseNonNegativeNumber v)
       = Ok (nc_orderCountFrom p)
    /\ (v <- getSingleString (cq_orderCountTo q) ;; parseNonNegativeNumber v)
       = Ok (nc_orderCountTo p)
    /\ getSingleString (cq_search q) = Ok vsearch
    /\ sanitizeSearch vsearch = Ok (nc_search p).
Proof.
  unfold normalizeCustomerQueryParams. intros H. bind_ok H.
  injection H as <-. cbn [nc_page nc_limit nc_sortField nc_sortOrder
    nc_registrationDateFrom nc_registrationDateTo nc_lastOrderDateFrom
    nc_lastOrderDateTo nc_totalAmountFrom nc_totalAmountTo nc_orderCountFrom
    nc_orderCountTo nc_search].
  clear E E2 E3 E4 E5 E6 E7 E8 E9 E10. inner_ok. injection E0 as <-.
  do 4 eexists. repeat split; try reflexivity; eassumption.
Qed.

(* ------------------------------------------------------------------ *)
(** ** Invariants of the normalised records *)

Lemma bind_Ok {A B} (r : result A) (k : A -> result B) (b : B) :
  bind r k = Ok b -> exists a, r = Ok a /\ k a = Ok b.
Proof. destruct r as [a|e]; simpl; intros H; [now exists a | discriminate]. Qed.


Lemma page_field_ok (x : RawFieldValue) (r : option number) :
  (v <- getSingleString x ;; parsePositiveInt v (Some (Fin 1))) = Ok r ->
  exists a, non_null r = of_Z a /\ 1 <= a.
Proof.
  intros H. apply bind_Ok in H. destruct H as (v & _ & H).
  destruct (parsePositiveInt_ok v 1 r) as (a & -> & Ha); [lia | exact H |].
  now exists a.
Qed.

Lemma limit_field_ok (v : option jsstring) (d : Z) :
  1 <= d -> exists b, normalizeLimit (of_string v) (of_Z d) = of_Z b /\ 1 <= b <= d.
Proof. apply normalizeLimit_between. Qed.

Lemma amount_field_ok (x : RawFieldValue) (n : number) :
  (v <- getSingleString x ;; parseNonNegativeNumber v) = Ok (Some n) ->
  isFinite n = true /\ num_leb (Fin 0) n = true.
Proof.
  intros H. apply bind_Ok in H. destruct H as (v & _ & H).
  now apply (parseNonNegativeNumber_ok v).
Qed.

Lemma date_field_ok (Date_parse : jsstring -> Date) (x : RawFieldValue) (t : Date) :
  (v <- getSingleString x ;; parseDate Date_parse v) = Ok (Some t) ->
  exists ms, t = TimeValue ms.
Proof.
  intros H. apply bind_Ok in H. destruct H as (v & _ & H).
  now apply (parseDate_ok Date_parse v).
Qed.

(** X2.  Every record [normalizeOrderQueryParams] returns, with an
    integer default limit [d >= 1], has an integer page of at least 1,
    an integer limit between 1 and [d], finite amounts that are not
    negative, valid dates, and a search text that is not empty, has no
    white space at either end, and is made of allowed characters and of
    backslashes that each escape a metacharacter. *)
Theorem normalizeOrderQueryParams_invariant (Date_parse : jsstring -> Date)
  (q : OrderQueryParams) (d : Z) (p : NormalizedOrderParams) :
  1 <= d ->
  normalizeOrderQueryParams Date_parse q (of_Z d) = Ok p ->
  (exists a, no_page p = of_Z a /\ 1 <= a)
  /\ (exists b, no_limit p = of_Z b /\ 1 <= b <= d)
  /\ (forall n, no_totalAmountFrom p = Some n \/ no_totalAmountTo p = Some n ->
                isFinite n = true /\ num_leb (Fin 0) n = true)
  /\ (forall t, no_orderDateFrom p = Some t \/ no_orderDateTo p = Some t ->
                exists ms, t = TimeValue ms)
  /\ (forall s, no_search p = Some s -> search_shape s).
Proof.
  intros Hd H.
  destruct (normalizeOrderQueryParams_inv _ _ _ _ H)
    as (page & vl & vs & vq & Hpage & -> & _ & -> & _ & _ & _ & _ &
        Haf & Hat & Hdf & Hdt & _ & Hsearch).
  split; [now apply (page_field_ok (oq_page q))|].
  split; [now apply limit_field_ok|].
  split; [|split].
  - intros n [Hn | Hn]; rewrite Hn in *; eapply amount_field_ok; eassumption.
  - intros t [Ht | Ht]; rewrite Ht in *; eapply date_field_ok; eassumption.
  - intros s Hs. rewrite Hs in Hsearch. now apply (sanitizeSearch_shape vq).
Qed.

Lemma normalizeOrderQueryParams_invariant_example :
  exists p,
    normalizeOrderQueryParams parse_2024_01_15
      {| oq_page := Single (js "3"); oq_limit := Single (js "4");
         oq_sortField := Absent; oq_sortOrder := Single (js "asc");
         oq_status := Absent;
         oq_totalAmountFrom := Single (js "10.5"); oq_totalAmountTo := Absent;
         oq_orderDateFrom := Absent; oq_orderDateTo := Single (js "2024-01-15");
         oq_search := Single (js " big+tall ") |} (of_Z 10) = Ok p
    /\ (exists a, no_page p = of_Z a /\ 1 <= a)
    /\ (exists b, no_limit p = of_Z b /\ 1 <= b <= 10)
    /\ (forall n, no_totalAmountFrom p = Some n \/ no_totalAmountTo p = Some n ->
                  isFinite n = true /\ num_leb (Fin 0) n = true)
    /\ (forall t, no_orderDateFrom p = Some t \/ no_orderDateTo p = Some t ->
                  exists ms, t = TimeValue ms)
    /\ (forall s, no_search p = Some s -> search_shape s).
Proof.
  eexists. split; [vm_compute; reflexivity|].
  apply (normalizeOrderQueryParams_invariant parse_2024_01_15
           {| oq_page := Single (js "3"); oq_limit := Single (js "4");
              oq_sortField := Absent; oq_sortOrder := Single (js "asc");
              oq_status := Absent;
              oq_totalAmountFrom := Single (js "10.5"); oq_totalAmountTo := Absent;
              oq_orderDateFrom := Absent; oq_orderDateTo := Single (js "2024-01-15");
              oq_search := Single (js " big+tall ") |} 10); [lia|].
  vm_compute. reflexivity.
Defined.

(** X3.  The same invariant for [normalizeCustomerQueryParams]: page at
    least 1, limit between 1 and the default, every amount and count
    bound finite and not negative, every date bound valid, and a search
    text of the normalised shape. *)
Theorem normalizeCustomerQueryParams_invariant (Date_parse : jsstring -> Date)
  (q : CustomerQueryParams) (d : Z) (p : NormalizedCustomerParams) :
  1 <= d ->
  normalizeCustomerQueryParams Date_parse q (of_Z d) = Ok p ->
  (exists a, nc_page p = of_Z a /\ 1 <= a)
  /\ (exists b, nc_limit p = of_Z b /\ 1 <= b <= d)
  /\ (forall n, nc_totalAmountFrom p = Some n \/ nc_totalAmountTo p = Some n
                \/ nc_orderCountFrom p = Some n \/ nc_orderCountTo p = Some n ->
                isFinite n = true /\ num_leb (Fin 0) n = true)
  /\ (forall t, nc_registrationDateFrom p = Some t \/ nc_registrationDateTo p = Some t
                \/ nc_lastOrderDateFrom p = Some t \/ nc_lastOrderDateTo p = Some t ->
                exists ms, t = TimeValue ms)
  /\ (forall s, nc_search p = Some s -> search_shape s).
Proof.
  intros Hd H.
  destruct (normalizeCustomerQueryParams_inv _ _ _ _ H)
    as (page & vl & vs & vq & Hpage & -> & _ & -> & _ & _ & _ &
        Hrf & Hrt & Hlf & Hlt & Haf & Hat & Hcf & Hct & _ & Hsearch).
  split; [now apply (page_field_ok (cq_page q))|].
  split; [now apply limit_field_ok|].
  split; [|split].
  - intros n [Hn | [Hn | [Hn | Hn]]]; rewrite Hn in *;
      eapply amount_field_ok; eassumption.
  - intros t [Ht | [Ht | [Ht | Ht]]]; rewrite Ht in *;
      eapply date_field_ok; eassumption.
  - intros s Hs. rewrite Hs in Hsearch. now apply (sanitizeSearch_shape vq).
Qed.

Lemma normalizeCustomerQueryParams_invariant_example :
  exists p,
    normalizeCustomerQueryParams parse_2024_01_15
      {| cq_page := Multiple [js "2"]; cq_limit := Single (js "50");
         cq_sortField := Single (js "name"); cq_sortOrder := Absent;
         cq_registrationDateFrom := Single (js "2024-01-15");
         cq_registrationDateTo := Absent;
         cq_lastOrderDateFrom := Absent; cq_lastOrderDateTo := Absent;
         cq_totalAmountFrom := Absent; cq_totalAmountTo := Single (js "1e3");
         cq_orderCountFrom := Single (js "0"); cq_orderCountTo := Absent;
         cq_search := Single (js "ann") |} (of_Z 10) = Ok p
    /\ (exists a, nc_page p = of_Z a /\ 1 <= a)
    /\ (exists b, nc_limit p = of_Z b /\ 1 <= b <= 10)
    /\ (forall n, nc_totalAmountFrom p = Some n \/ nc_totalAmountTo p = Some n
                  \/ nc_orderCountFrom p = Some n \/ nc_orderCountTo p = Some n ->
                  isFinite n = true /\ num_leb (Fin 0) n = true)
    /\ (forall t, nc_registrationDateFrom p = Some t \/ nc_registrationDateTo p = Some t
                  \/ nc_lastOrderDateFrom p = Some t \/ nc_lastOrderDateTo p = Some t ->
                  exists ms, t = TimeValue ms)
    /\ (forall s, nc_search p = Some s -> search_shape s).
Proof.
  eexists. split; [vm_compute; reflexivity|].
  apply (normalizeCustomerQueryParams_invariant parse_2024_01_15
           {| cq_page := Multiple [js "2"]; cq_limit := Single (js "50");
              cq_sortField := Single (js "name"); cq_sortOrder := Absent;
              cq_registrationDateFrom := Single (js "2024-01-15");
              cq_registrationDateTo := Absent;
              cq_lastOrderDateFrom := Absent; cq_lastOrderDateTo := Absent;
              cq_totalAmountFrom := Absent; cq_totalAmountTo := Single (js "1e3");
              cq_orderCountFrom := Single (js "0"); cq_orderCountTo := Absent;
              cq_search := Single (js "ann") |} 10); [lia|].
  vm_compute. reflexivity.
Defined.

(* ------------------------------------------------------------------ *)
(** ** How the normalisers fail *)

Create HintDb norm_err.

Lemma getSingleString_error (v : RawFieldValue) (e : error) :
  getSingleString v = Throw e -> normaliser_error e.
Proof.
  destruct v as [|s|[|a [|b l]]]; simpl; try discriminate.
  intros H. injection H as <-. now left.
Qed.

Lemma parsePositiveInt_error (v : option jsstring) (d : option number) (e : error) :
  parsePositiveInt v d = Throw e -> normaliser_error e.
Proof.
  unfold parsePositiveInt. destruct v as [[|c s]|]; try discriminate.
  destruct (_ || _)%bool; [|discriminate].
  intros H. injection H as <-. right. right. eexists. split; [reflexivity | exact I].
Qed.

Lemma parseNonNegativeNumber_error (v : option jsstring) (e : error) :
  parseNonNegativeNumber v = Throw e -> normaliser_error e.
Proof.
  unfold parseNonNegativeNumber. destruct v as [[|c s]|]; try discriminate.
  destruct (_ || _)%bool; [|discriminate].
  intros H. injection H as <-. right. right. eexists. split; [reflexivity | exact I].
Qed.

Lemma parseDate_error (Date_parse : jsstring -> Date) (v : option jsstring) (e : error) :
  parseDate Date_parse v = Throw e -> normaliser_error e.
Proof.
  unfold parseDate. destruct v as [[|c s]|]; try discriminate.
  destruct (Date_parse (c :: s)); [|discriminate].
  intros H. injection H as <-. right. right. eexists. split; [reflexivity | exact I].
Qed.

Lemma parseSortOrder_error (v : option jsstring) (d : SortOrder) (e : error) :
  parseSortOrder v d = Throw e -> normaliser_error e.
Proof.
  unfold parseSortOrder. destruct v as [[|c s]|]; try discriminate.
  destruct (jsstring_eqb (c :: s) (js "asc")); [discriminate|].
  destruct (jsstring_eqb (c :: s) (js "desc")); [discriminate|].
  intros H. injection H as <-. right. right. eexists. split; [reflexivity | exact I].
Qed.

Lemma sanitizeSearch_error (v : option jsstring) (e : error) :
  sanitizeSearch v = Throw e -> normaliser_error e.
Proof.
  destruct v as [[|c s]|]; try discriminate.
  rewrite sanitizeSearch_nonempty by discriminate.
  destruct (trim (c :: s)) as [|x t]; [discriminate|]. cbv zeta.
  destruct (allowed_test (x :: t)); [discriminate|].
  intros H. injection H as <-. right. now left.
Qed.

#[local] Hint Resolve getSingleString_error parsePositiveInt_error
  parseNonNegativeNumber_error parseDate_error parseSortOrder_error
  sanitizeSearch_error : norm_err.




(* ------------------------------------------------------------------ *)
(** ** Escaping *)

Lemma escape_meta_injective (s t : jsstring) : escape_meta s = escape_meta t -> s = t.
Proof.
  revert t. induction s as [|c r IH]; intros [|c' r'].
  - trivial.
  - rewrite escape_meta_cons. destruct (regex_meta c'); discriminate.
  - rewrite escape_meta_cons. destruct (regex_meta c); discriminate.
  - rewrite !escape_meta_cons.
    destruct (regex_meta c) eqn:E, (regex_meta c') eqn:E'; simpl; intros H.
    + injection H as -> H. f_equal. now apply IH.
    + injection H as <- _. discriminate.
    + injection H as -> _. discriminate.
    + injection H as -> H. f_equal. now apply IH.
Qed.

(** X5.  [escapeRegex] turns any text into a pattern in which every
    metacharacter follows a backslash and nothing else does, and it
    loses nothing: two different texts never give the same pattern. *)
Theorem escapeRegex_literal (s : jsstring) :
  escaped (CustomersAlt.escapeRegex s)
  /\ (forall t, CustomersAlt.escapeRegex s = CustomersAlt.escapeRegex t -> s = t).
Proof.
  unfold CustomersAlt.escapeRegex. split.
  - apply escape_meta_escaped.
  - intros t. apply escape_meta_injective.
Qed.

(* ------------------------------------------------------------------ *)
(** ** [getOrders]: search alphabet, status filter and window *)

Lemma word_not_meta (c : char) : is_word c = true -> regex_meta c = false.
Proof. intros H. char_solve. Qed.

Lemma space_not_meta (c : char) : is_space c = true -> regex_meta c = false.
Proof. intros H. char_solve. Qed.

Lemma getOrders_Aggregate_inv (escapeRegExp : jsstring -> jsstring)
  (Date_parse : jsstring -> Date) (q : OrderQueryParams) (pipeline : Orders.Pipeline) :
  Orders.getOrders escapeRegExp Date_parse q = Orders.Aggregate pipeline ->
  exists p, normalizeOrderQueryParams Date_parse q (Fin 10) = Ok p
            /\ Orders.buildQuery escapeRegExp p = Ok pipeline.
Proof.
  unfold Orders.getOrders.
  destruct (normalizeOrderQueryParams Date_parse q (Fin 10)) as [p|e]; cbn [bind];
    [|discriminate].
  destruct (Orders.buildQuery escapeRegExp p) as [pl|e] eqn:E; [|discriminate].
  intros H. injection H as <-. now exists p.
Qed.

Lemma sanitizeSearch_of_text (raw : jsstring) (r : option jsstring) :
  sanitizeSearch (Some raw) = Ok r ->
  r = match trim raw with [] => None | t => Some (escape_meta t) end.
Proof.
  destruct raw as [|c s]; [intros H; now injection H as <-|].
  rewrite sanitizeSearch_nonempty by discriminate.
  destruct (trim (c :: s)) as [|x t]; [intros H; now injection H as <-|].
  cbv zeta. destruct (allowed_test (x :: t)); [|discriminate].
  intros H. now injection H as <-.
Qed.

(** X6.  [getOrders] accepts fewer search texts than the sanitiser: a
    search that passed normalisation but holds a character other than a
    word character or white space (the hyphen, dot, plus and percent the
    sanitiser lets through) ends in a [BadRequestError]; a search made
    of word characters and white space only reaches the aggregation
    (no status given). *)
Theorem getOrders_search_alphabet (escapeRegExp : jsstring -> jsstring)
  (Date_parse : jsstring -> Date) (q : OrderQueryParams)
  (p : NormalizedOrderParams) (raw : jsstring) :
  normalizeOrderQueryParams Date_parse q (Fin 10) = Ok p ->
  getSingleString (oq_search q) = Ok (Some raw) ->
  (existsb (fun c => negb (is_word c || is_space c)) raw = true ->
   exists m, Orders.getOrders escapeRegExp Date_parse q = Orders.Next (BadRequestError m)
             /\ (m = MsgStatus \/ m = MsgOrderSearch))
  /\ (forallb (fun c => is_word c || is_space c)%bool raw = true ->
      no_status p = None ->
      exists pipeline,
        Orders.getOrders escapeRegExp Date_parse q = Orders.Aggregate pipeline).
Proof.
  intros Hp Hraw.
  destruct (normalizeOrderQueryParams_inv _ _ _ _ Hp)
    as (_ & _ & _ & vq & _ & _ & _ & _ & _ & _ & _ & _ & _ & _ & _ & _ & Hq & Hs).
  rewrite Hraw in Hq. injection Hq as <-.
  apply sanitizeSearch_of_text in Hs.
  unfold Orders.getOrders. rewrite Hp. cbn [bind]. unfold Orders.buildQuery.
  split.
  - intros Hex. apply existsb_exists in Hex. destruct Hex as (c & Hin & Hc).
    apply negb_true_iff, orb_false_iff in Hc. destruct Hc as [Hw Hsp].
    pose proof (trim_keeps raw c Hin Hsp) as Hin'.
    destruct (trim raw) as [|x t] eqn:Et; [contradiction|].
    rewrite Hs.
    assert (Htest : Orders.search_test (escape_meta (x :: t)) = true).
    { apply existsb_exists. exists c. split; [now apply escape_meta_keeps|].
      now rewrite Hw, Hsp. }
    destruct (escape_meta (x :: t)) as [|y u] eqn:Ee; [discriminate|].
    destruct (no_status p) as [[|c0 s0]|]; cbn [bind];
      try (rewrite Htest; cbn [bind]; eexists; split; [reflexivity | now right]).
    destruct (Orders.status_test (c0 :: s0)); cbn [bind].
    + rewrite Htest. cbn [bind]. eexists. split; [reflexivity | now right].
    + eexists. split; [reflexivity | now left].
  - intros Hall Hst. rewrite Hst. cbn [bind].
    destruct (trim raw) as [|x t] eqn:Et; rewrite Hs; cbn [bind]; [now eexists|].
    assert (Ht : forallb (fun c => is_word c || is_space c)%bool (x :: t) = true).
    { rewrite <- Et. apply (forallb_incl _ raw); [apply trim_incl | exact Hall]. }
    assert (Hplain : escape_meta (x :: t) = x :: t).
    { apply escape_meta_plain. apply forallb_forall. intros c Hin.
      rewrite forallb_forall in Ht. specialize (Ht c Hin).
      apply orb_true_iff in Ht. destruct Ht as [Hw | Hsp].
      - now rewrite word_not_meta.
      - now rewrite space_not_meta. }
    rewrite Hplain.
    assert (Htest : Orders.search_test (x :: t) = false).
    { unfold Orders.search_test. destruct (existsb _ (x :: t)) eqn:E; trivial.
      apply existsb_exists in E. destruct E as (c & Hin & Hc).
      rewrite forallb_forall in Ht. rewrite (Ht c Hin) in Hc. discriminate. }
    rewrite Htest. cbn [bind]. now eexists.
Qed.

Lemma getOrders_search_alphabet_example :
  exists p,
    normalizeOrderQueryParams parse_2024_01_15
      {| oq_page := Absent; oq_limit := Absent; oq_sortField := Absent;
         oq_sortOrder := Absent; oq_status := Absent;
         oq_totalAmountFrom := Absent; oq_totalAmountTo := Absent;
         oq_orderDateFrom := Absent; oq_orderDateTo := Absent;
         oq_search := Single (js "t-shirt") |} (Fin 10) = Ok p
    /\ no_search p = Some (js "t-shirt")
    /\ exists m,
         Orders.getOrders escape_meta parse_2024_01_15
           {| oq_page := Absent; oq_limit := Absent; oq_sortField := Absent;
              oq_sortOrder := Absent; oq_status := Absent;
              oq_totalAmountFrom := Absent; oq_totalAmountTo := Absent;
              oq_orderDateFrom := Absent; oq_orderDateTo := Absent;
              oq_search := Single (js "t-shirt") |} = Orders.Next (BadRequestError m)
         /\ (m = MsgStatus \/ m = MsgOrderSearch).
Proof.
  eexists. split; [vm_compute; reflexivity|]. split; [reflexivity|].
  refine (proj1 (getOrders_search_alphabet escape_meta parse_2024_01_15 _ _
                   (js "t-shirt") _ _) _).
  - vm_compute. reflexivity.
  - reflexivity.
  - reflexivity.
Defined.

(** X7.  Whenever [getOrders] reaches the aggregation, a status in the
    filter is the status of the request, it is not empty and it is made
    of letters, digits, underscores and hyphens only; an empty status is
    left out of the filter. *)
Theorem getOrders_status_filter (escapeRegExp : jsstring -> jsstring)
  (Date_parse : jsstring -> Date) (q : OrderQueryParams) (pipeline : Orders.Pipeline) :
  Orders.getOrders escapeRegExp Date_parse q = Orders.Aggregate pipeline ->
  match Orders.f_status (Orders.p_match pipeline) with
  | Some st =>
      getSingleString (oq_status q) = Ok (Some st) /\ st <> []
      /\ forallb (fun c => is_word c || char_is "-" c)%bool st = true
  | None =>
      getSingleString (oq_status q) = Ok None
      \/ getSingleString (oq_status q) = Ok (Some [])
  end.
Proof.
  intros H. destruct (getOrders_Aggregate_inv _ _ _ _ H) as (p & Hp & Hb).
  destruct (normalizeOrderQueryParams_inv _ _ _ _ Hp)
    as (_ & _ & _ & _ & _ & _ & _ & _ & _ & _ & _ & Hst & _).
  rewrite Hst. unfold Orders.buildQuery in Hb.
  assert (Hsearch : forall r : result unit,
            r = match no_search p with
                | Some ((_ :: _) as s) =>
                    if Orders.search_test s then Throw (BadRequestError MsgOrderSearch)
                    else Ok tt
                | _ => Ok tt
                end -> r = Ok tt \/ exists e, r = Throw e).
  { intros r ->. destruct (no_search p) as [[|c s]|]; auto.
    destruct (Orders.search_test (c :: s)); [right; now eexists | now left]. }
  destruct (no_status p) as [[|c s]|]; cbn [bind] in Hb.
  - destruct (Hsearch _ eq_refl) as [E | (e & E)]; rewrite E in Hb; cbn [bind] in Hb;
      [|discriminate].
    injection Hb as <-. cbn. now right.
  - destruct (Orders.status_test (c :: s)) eqn:Et; cbn [bind] in Hb; [|discriminate].
    destruct (Hsearch _ eq_refl) as [E | (e & E)]; rewrite E in Hb; cbn [bind] in Hb;
      [|discriminate].
    injection Hb as <-. cbn. split; [reflexivity|]. split; [discriminate|].
    unfold Orders.status_test in Et. now apply andb_true_iff in Et.
  - destruct (Hsearch _ eq_refl) as [E | (e & E)]; rewrite E in Hb; cbn [bind] in Hb;
      [|discriminate].
    injection Hb as <-. cbn. now left.
Qed.

Lemma getOrders_status_filter_example :
  exists pipeline,
    Orders.getOrders escape_meta parse_2024_01_15
      {| oq_page := Absent; oq_limit := Absent; oq_sortField := Absent;
         oq_sortOrder := Absent; oq_status := Single (js "in-progress");
         oq_totalAmountFrom := Absent; oq_totalAmountTo := Absent;
         oq_orderDateFrom := Absent; oq_orderDateTo := Absent;
         oq_search := Absent |} = Orders.Aggregate pipeline
    /\ match Orders.f_status (Orders.p_match pipeline) with
       | Some st =>
           getSingleString (Single (js "in-progress")) = Ok (Some st) /\ st <> []
           /\ forallb (fun c => is_word c || char_is "-" c)%bool st = true
       | None =>
           getSingleString (Single (js "in-progress")) = Ok None
           \/ getSingleString (Single (js "in-progress")) = Ok (Some [])
       end.
Proof.
  destruct (Orders.getOrders escape_meta parse_2024_01_15
      {| oq_page := Absent; oq_limit := Absent; oq_sortField := Absent;
         oq_sortOrder := Absent; oq_status := Single (js "in-progress");
         oq_totalAmountFrom := Absent; oq_totalAmountTo := Absent;
         oq_orderDateFrom := Absent; oq_orderDateTo := Absent;
         oq_search := Absent |}) as [e|pipeline] eqn:E.
  - vm_compute in E. discriminate E.
  - exists pipeline. split; [reflexivity|].
    exact (getOrders_status_filter _ _ _ _ E).
Defined.

Lemma Qred_sub_int (a b : Z) : Qred ((a # 1) - (b # 1)) = (a - b # 1).
Proof.
  transitivity (Qred (a - b # 1)); [|apply Qred_int].
  apply Qred_complete. unfold Qeq. simpl. lia.
Qed.

Lemma Qred_mul_int (a b : Z) : Qred ((a # 1) * (b # 1)) = (a * b # 1).
Proof.
  transitivity (Qred (a * b # 1)); [|apply Qred_int].
  apply Qred_complete. unfold Qeq. simpl. lia.
Qed.

(** [(page - 1) * limit] is exact while it stays within 2^53. *)
Lemma skip_exact (a b : Z) :
  1 <= a -> 1 <= b -> (a - 1) * b <= 2 ^ 53 ->
  num_mul (num_sub (of_Z a) (Fin 1)) (of_Z b) = of_Z ((a - 1) * b).
Proof.
  intros Ha Hb Hmax.
  assert (Ha' : 0 <= a - 1 <= 2 ^ 53) by nia.
  unfold num_sub, of_Z. change (Fin 1) with (Fin (1 # 1)). cbv iota beta.
  rewrite Qred_sub_int, (round64_safe (a - 1) Ha').
  unfold num_mul, of_Z. rewrite Qred_mul_int.
  apply round64_safe. nia.
Qed.

Lemma orders_window (escapeRegExp : jsstring -> jsstring)
  (p : NormalizedOrderParams) (pipeline : Orders.Pipeline) :
  Orders.buildQuery escapeRegExp p = Ok pipeline ->
  Orders.p_skip pipeline = num_mul (num_sub (no_page p) (Fin 1)) (no_limit p)
  /\ Orders.p_limit pipeline = no_limit p.
Proof.
  unfold Orders.buildQuery. intros H.
  destruct (no_status p) as [[|c r]|];
    destruct (no_search p) as [[|c' r']|]; cbn [bind] in H;
    repeat match type of H with
           | context [if ?b then _ else _] => destruct b; cbn [bind] in H
           end;
    try discriminate; injection H as <-; split; reflexivity.
Qed.

(** X8.  Whenever [getOrders] reaches the aggregation, the page is an
    integer [a >= 1], [$limit] is an integer [b] between 1 and 10, and
    [$skip] is [(a - 1) * b] exactly, as long as that product does not
    exceed 2^53. *)
Theorem getOrders_window (escapeRegExp : jsstring -> jsstring)
  (Date_parse : jsstring -> Date) (q : OrderQueryParams) (pipeline : Orders.Pipeline) :
  Orders.getOrders escapeRegExp Date_parse q = Orders.Aggregate pipeline ->
  exists p a b,
    normalizeOrderQueryParams Date_parse q (Fin 10) = Ok p
    /\ no_page p = of_Z a /\ 1 <= a
    /\ Orders.p_limit pipeline = of_Z b /\ 1 <= b <= 10
    /\ ((a - 1) * b <= 2 ^ 53 -> Orders.p_skip pipeline = of_Z ((a - 1) * b)).
Proof.
  intros H. destruct (getOrders_Aggregate_inv _ _ _ _ H) as (p & Hp & Hb).
  destruct (normalizeOrderQueryParams_inv _ _ _ _ Hp)
    as (page & vl & _ & _ & Hpage & Hpg & _ & Hlim & _).
  destruct (page_field_ok _ _ Hpage) as (a & Ha & Ha1).
  destruct (limit_field_ok vl 10) as (b & Hbv & Hb1); [lia|].
  destruct (orders_window _ _ _ Hb) as (Hskip & Hlimit).
  change (Fin 10) with (of_Z 10) in Hlim.
  rewrite Hpg, Ha, Hlim, Hbv in Hskip. rewrite Hlim, Hbv in Hlimit.
  exists p, a, b. repeat split; try assumption; try lia.
  - now rewrite Hpg.
  - intros Hmax. rewrite Hskip. apply skip_exact; lia.
Qed.

Lemma getOrders_window_example :
  exists pipeline,
    Orders.getOrders escape_meta parse_2024_01_15
      {| oq_page := Single (js "4"); oq_limit := Single (js "7");
         oq_sortField := Absent; oq_sortOrder := Absent; oq_status := Absent;
         oq_totalAmountFrom := Absent; oq_totalAmountTo := Absent;
         oq_orderDateFrom := Absent; oq_orderDateTo := Absent;
         oq_search := Absent |} = Orders.Aggregate pipeline
    /\ exists p a b,
         normalizeOrderQueryParams parse_2024_01_15
           {| oq_page := Single (js "4"); oq_limit := Single (js "7");
              oq_sortField := Absent; oq_sortOrder := Absent; oq_status := Absent;
              oq_totalAmountFrom := Absent; oq_totalAmountTo := Absent;
              oq_orderDateFrom := Absent; oq_orderDateTo := Absent;
              oq_search := Absent |} (Fin 10) = Ok p
         /\ no_page p = of_Z a /\ 1 <= a
         /\ Orders.p_limit pipeline = of_Z b /\ 1 <= b <= 10
         /\ ((a - 1) * b <= 2 ^ 53 -> Orders.p_skip pipeline = of_Z ((a - 1) * b)).
Proof.
  destruct (Orders.getOrders escape_meta parse_2024_01_15
      {| oq_page := Single (js "4"); oq_limit := Single (js "7");
         oq_sortField := Absent; oq_sortOrder := Absent; oq_status := Absent;
         oq_totalAmountFrom := Absent; oq_totalAmountTo := Absent;
         oq_orderDateFrom := Absent; oq_orderDateTo := Absent;
         oq_search := Absent |}) as [e|pipeline] eqn:E.
  - vm_compute in E. discriminate E.
  - exists pipeline. split; [reflexivity|].
    exact (getOrders_window _ _ _ _ E).
Defined.

(* ------------------------------------------------------------------ *)
(** ** The customer handlers: sort, window, date bounds, search *)

Lemma escape_meta_length (t : jsstring) :
  (List.length t <= List.length (escape_meta t))%nat.
Proof.
  induction t as [|c r IH]; simpl; trivial.
  change (flat_map _ r) with (escape_meta r).
  destruct (regex_meta c); simpl; lia.
Qed.

Lemma escape_meta_longer (t : jsstring) (c : char) :
  In c t -> regex_meta c = true ->
  (List.length t < List.length (escape_meta t))%nat.
Proof.
  induction t as [|x r IH]; simpl; [contradiction|].
  change (flat_map _ r) with (escape_meta r).
  pose proof (escape_meta_length r).
  intros [-> | Hin] Hc.
  - rewrite Hc. simpl. lia.
  - specialize (IH Hin Hc). destruct (regex_meta x); simpl; lia.
Qed.

Lemma endOfDay_fixed_zone (offset t : Z) :
  Customers.endOfDay (fixed_zone offset) (TimeValue t)
  = TimeClip (Day (t + offset) * msPerDay + end_of_day - offset).
Proof. reflexivity. Qed.

Lemma Day_end_of_day (D : Z) : Day (D * msPerDay + end_of_day) = D.
Proof.
  unfold Day. rewrite Z.add_comm, Z.div_add by (unfold msPerDay; lia).
  reflexivity.
Qed.

(** X11.  On a host with a fixed offset from UTC, moving a date to the
    end of its day twice is the same as doing it once. *)
Theorem endOfDay_idempotent (offset : Z) (d : Date) :
  Customers.endOfDay (fixed_zone offset) (Customers.endOfDay (fixed_zone offset) d)
  = Customers.endOfDay (fixed_zone offset) d.
Proof.
  destruct d as [|t]; [reflexivity|].
  rewrite endOfDay_fixed_zone. unfold TimeClip.
  destruct (8640000000000000 <?
              Z.abs (Day (t + offset) * msPerDay + end_of_day - offset)) eqn:E;
    [reflexivity|].
  rewrite endOfDay_fixed_zone.
  replace (Day (t + offset) * msPerDay + end_of_day - offset + offset)
    with (Day (t + offset) * msPerDay + end_of_day) by lia.
  rewrite Day_end_of_day. unfold TimeClip. now rewrite E.
Qed.

Section CustomerHandlers.
Context {ObjectId : Type}.
Variable Order_find_by_address : RegExp -> list ObjectId.
Variable escapeRegExp : jsstring -> jsstring.
Variable Date_parse : jsstring -> Date.
Variable LocalTZA : Z -> bool -> Z.




(** X12.  A normalised search text of more than 50 code units (the
    backslashes added by the sanitiser count) makes customers.ts end in
    [NotFoundError], while the near-duplicate handler lists the
    customers with no search condition at all. *)
Theorem getCustomers_long_search (q : CustomerQueryParams)
  (p : NormalizedCustomerParams) (s : jsstring) :
  normalizeCustomerQueryParams Date_parse q (Fin 10) = Ok p ->
  nc_search p = Some s -> (50 < List.length s)%nat ->
  Customers.getCustomers Order_find_by_address escapeRegExp Date_parse LocalTZA q
    = Customers.Next (NotFoundError MsgCustomerSearch)
  /\ exists filters options,
       CustomersAlt.getCustomers Order_find_by_address Date_parse LocalTZA q
         = Customers.Find filters options
       /\ Customers.f_or filters = None.
Proof.
  intros Hp Hs Hlen.
  unfold Customers.getCustomers, CustomersAlt.getCustomers. rewrite Hp.
  unfold Customers.buildQuery, CustomersAlt.buildQuery. rewrite Hs.
  destruct s as [|c r]; [simpl in Hlen; lia|].
  destruct (Nat.leb_spec (List.length (c :: r)) 50); [lia|].
  split; [reflexivity|]. do 2 eexists. split; reflexivity.
Qed.

(** X13.  The near-duplicate handler escapes the search text a second
    time: the sanitiser has already escaped the trimmed text, and the
    name pattern is that result escaped again, so with a dot or a plus
    in the search the pattern asks for a literal backslash. *)
Theorem getCustomers_double_escape (q : CustomerQueryParams)
  (filters : Customers.Filters ObjectId) (options : Customers.Options)
  (raw : jsstring) :
  CustomersAlt.getCustomers Order_find_by_address Date_parse LocalTZA q
    = Customers.Find filters options ->
  getSingleString (cq_search q) = Ok (Some raw) ->
  trim raw <> [] ->
  (List.length (escape_meta (trim raw)) <= 50)%nat ->
  let pattern := {| source := escape_meta (escape_meta (trim raw)); flags := js "i" |} in
  Customers.f_or filters
    = Some [Customers.NameMatches pattern;
            Customers.LastOrderIn (Order_find_by_address pattern)]
  /\ (existsb (fun c => char_is "." c || char_is "+" c)%bool raw = true ->
      source pattern <> escape_meta (trim raw)).
Proof.
  intros H Hraw Hne Hlen pattern.
  unfold CustomersAlt.getCustomers in H.
  destruct (normalizeCustomerQueryParams Date_parse q (Fin 10)) as [p|e] eqn:Hp;
    [|discriminate].
  destruct (normalizeCustomerQueryParams_inv _ _ _ _ Hp)
    as (_ & _ & _ & vq & _ & _ & _ & _ & _ & _ & _ & _ & _ & _ & _ & _ & _ & _ & _ &
        Hq & Hs).
  rewrite Hraw in Hq. injection Hq as <-.
  apply sanitizeSearch_of_text in Hs.
  destruct (trim raw) as [|x t] eqn:Et; [congruence|].
  unfold CustomersAlt.buildQuery in H. rewrite Hs in H.
  destruct (escape_meta (x :: t)) as [|y u] eqn:Ee.
  { rewrite escape_meta_cons in Ee. destruct (regex_meta x); discriminate. }
  destruct (Nat.leb_spec (List.length (y :: u)) 50); [|lia].
  injection H as <- _. split; [reflexivity|].
  intros Hdot. apply existsb_exists in Hdot. destruct Hdot as (c & Hin & Hc).
  assert (Hsp : is_space c = false) by (clear - Hc; char_solve).
  assert (Hmeta : regex_meta c = true) by (clear - Hc; char_solve).
  assert (Hin' : In c (x :: t)) by (rewrite <- Et; now apply trim_keeps).
  assert (Hb : In (ch "\") (y :: u))
    by (rewrite <- Ee; now apply (escape_meta_backslash _ c)).
  pose proof (escape_meta_longer (y :: u) (ch "\") Hb eq_refl) as Hlonger.
  subst pattern. cbn [source]. unfold CustomersAlt.escapeRegex.
  intros Heq. rewrite Heq in Hlonger. lia.
Qed.
End CustomerHandlers.





Lemma getCustomers_long_search_example :
  exists p,
    normalizeCustomerQueryParams parse_2024_01_15
      {| cq_page := Absent; cq_limit := Absent; cq_sortField := Absent;
         cq_sortOrder := Absent;
         cq_registrationDateFrom := Absent; cq_registrationDateTo := Absent;
         cq_lastOrderDateFrom := Absent; cq_lastOrderDateTo := Absent;
         cq_totalAmountFrom := Absent; cq_totalAmountTo := Absent;
         cq_orderCountFrom := Absent; cq_orderCountTo := Absent;
         cq_search := Single (js "..........................") |} (Fin 10) = Ok p
    /\ nc_search p = Some (escape_meta (js ".........................."))
    /\ (50 < List.length (escape_meta (js "..........................")))%nat
    /\ Customers.getCustomers no_orders escape_meta parse_2024_01_15 utc_zone
         {| cq_page := Absent; cq_limit := Absent; cq_sortField := Absent;
            cq_sortOrder := Absent;
            cq_registrationDateFrom := Absent; cq_registrationDateTo := Absent;
            cq_lastOrderDateFrom := Absent; cq_lastOrderDateTo := Absent;
            cq_totalAmountFrom := Absent; cq_totalAmountTo := Absent;
            cq_orderCountFrom := Absent; cq_orderCountTo := Absent;
            cq_search := Single (js "..........................") |}
       = Customers.Next (NotFoundError MsgCustomerSearch).
Proof.
  pose (q := {| cq_page := Absent; cq_limit := Absent; cq_sortField := Absent;
         cq_sortOrder := Absent;
         cq_registrationDateFrom := Absent; cq_registrationDateTo := Absent;
         cq_lastOrderDateFrom := Absent; cq_lastOrderDateTo := Absent;
         cq_totalAmountFrom := Absent; cq_totalAmountTo := Absent;
         cq_orderCountFrom := Absent; cq_orderCountTo := Absent;
         cq_search := Single (js "..........................") |}).
  fold q.
  destruct (normalizeCustomerQueryParams parse_2024_01_15 q (Fin 10)) as [p|e] eqn:Hp;
    [|vm_compute in Hp; discriminate Hp].
  assert (Hs : nc_search p = Some (escape_meta (js "..........................")))
    by (vm_compute in Hp; injection Hp as <-; reflexivity).
  assert (Hlen : (50 < List.length (escape_meta (js "..........................")))%nat)
    by (vm_compute; lia).
  exists p. split; [reflexivity|]. split; [exact Hs|]. split; [exact Hlen|].
  exact (proj1 (getCustomers_long_search no_orders escape_meta parse_2024_01_15 utc_zone
                  q p _ Hp Hs Hlen)).
Defined.

Lemma getCustomers_double_escape_example :
  exists filters options,
    CustomersAlt.getCustomers no_orders parse_2024_01_15 utc_zone
      {| cq_page := Absent; cq_limit := Absent; cq_sortField := Absent;
         cq_sortOrder := Absent;
         cq_registrationDateFrom := Absent; cq_registrationDateTo := Absent;
         cq_lastOrderDateFrom := Absent; cq_lastOrderDateTo := Absent;
         cq_totalAmountFrom := Absent; cq_totalAmountTo := Absent;
         cq_orderCountFrom := Absent; cq_orderCountTo := Absent;
         cq_search := Single (js "a.b") |} = Customers.Find filters options
    /\ Customers.f_or filters
       = Some [Customers.NameMatches {| source := js "a\\\.b"; flags := js "i" |};
               Customers.LastOrderIn []].
Proof.
  pose (q := {| cq_page := Absent; cq_limit := Absent; cq_sortField := Absent;
         cq_sortOrder := Absent;
         cq_registrationDateFrom := Absent; cq_registrationDateTo := Absent;
         cq_lastOrderDateFrom := Absent; cq_lastOrderDateTo := Absent;
         cq_totalAmountFrom := Absent; cq_totalAmountTo := Absent;
         cq_orderCountFrom := Absent; cq_orderCountTo := Absent;
         cq_search := Single (js "a.b") |}).
  fold q.
  destruct (CustomersAlt.getCustomers no_orders parse_2024_01_15 utc_zone q)
    as [e|filters options] eqn:E; [vm_compute in E; discriminate E|].
  exists filters, options. split; [reflexivity|].
  refine (proj1 (getCustomers_double_escape no_orders parse_2024_01_15 utc_zone q
                   filters options (js "a.b") E eq_refl _ _)).
  - discriminate.
  - vm_compute. lia.
Defined.

(* ------------------------------------------------------------------ *)
(** ** More on the object sanitiser *)


(** X15.  A query bag of the declared shape (every known field absent,
    a string or an array of strings) passes through the [sanitizeObject]
    of either customer controller unchanged, so sanitising first never
    alters what the normaliser reads. *)
Theorem sanitizeObject_keeps_query_bag (q : CustomerQueryParams) :
  Customers.sanitizeObject (customer_query_value q) = customer_query_value q
  /\ CustomersAlt.sanitizeObject (customer_query_value q) = customer_query_value q.
Proof.
  split; [apply sanitizeObject_query_bag|].
  rewrite (sanitizeObject_same (customer_query_value q)) at 1.
  apply sanitizeObject_query_bag.
Qed.

(* ------------------------------------------------------------------ *)
(** ** [updateCustomer]: what reaches the store *)

Lemma keys_of_obj_cons (k : jsstring) (x : value) (rest : list (jsstring * value)) :
  keys_of (VObj ((k, x) :: rest)) = k :: keys_of x ++ keys_of (VObj rest).
Proof. reflexivity. Qed.

(** Whatever [get_clean] reads out of a value lies inside it. *)
Lemma get_clean_keys (key : jsstring) (v x : value) :
  get_clean key v = Some x -> incl (keys_of x) (keys_of v).
Proof.
  revert x. induction v as [ | | b | n | s | items IH | props IH] using value_ind;
    try discriminate.
  intros x. cbn [get_clean].
  assert (H : forall own inherited,
             own_or_inherited (get_clean key) key props = (own, inherited) ->
             (forall y, own = Some y -> incl (keys_of y) (keys_of (VObj props)))
             /\ (forall y, inherited = Some y -> incl (keys_of y) (keys_of (VObj props)))).
  { induction IH as [|[k y] ps Hy _ IHps]; intros own inh; cbn [own_or_inherited].
    - intros E. injection E as <- <-. split; discriminate.
    - destruct (own_or_inherited (get_clean key) key ps) as [own' inh'].
      destruct (IHps own' inh' eq_refl) as [Hown Hinh].
      rewrite keys_of_obj_cons. cbn [snd] in Hy.
      destruct (jsstring_eqb k (js "__proto__")).
      + intros E. injection E as <- <-. split.
        * intros z Hz. apply incl_tl, incl_appr. now apply Hown.
        * intros z Hz. apply incl_tl, incl_appl. now apply Hy.
      + destruct (jsstring_eqb k key).
        * intros E. injection E as <- <-. split.
          -- intros z Hz. injection Hz as <-. apply incl_tl, incl_appl, incl_refl.
          -- intros z Hz. apply incl_tl, incl_appr. now apply Hinh.
        * intros E. injection E as <- <-. split.
          -- intros z Hz. apply incl_tl, incl_appr. now apply Hown.
          -- intros z Hz. apply incl_tl, incl_appr. now apply Hinh. }
  destruct (own_or_inherited (get_clean key) key props) as [[y|] inh] eqn:E;
    destruct (H _ _ eq_refl) as [Hown Hinh]; intros Hx.
  - injection Hx as <-. now apply Hown.
  - now apply Hinh.
Qed.

Lemma get_clean_sanitized (key : jsstring) (body x : value) :
  get_clean key (Customers.sanitizeObject body) = Some x ->
  Forall (fun k => ~ starts_with_dollar k /\ ~ contains_dot k) (keys_of x).
Proof.
  intros H. apply Forall_forall. intros k Hin.
  apply dangerous_key_spec.
  pose proof (keys_of_sanitized body) as Hs. rewrite Forall_forall in Hs.
  apply Hs. now apply (get_clean_keys key _ x H).
Qed.

(** X16.  [updateCustomer] calls the store only with an id that passed
    [isValidObjectId], and the update it hands over holds at most the
    keys [name], [email] and [roles], each once: [name] and [email] are
    strings, [roles] is an array, and no key at any depth inside them
    starts with [$] or contains a dot.  Nothing else of the request body
    reaches the store. *)
Theorem updateCustomer_update_shape (isValidObjectId : jsstring -> bool)
  (id : option jsstring) (body : value) (id' : jsstring)
  (update : list (jsstring * value)) :
  CustomerCrud.updateCustomer isValidObjectId id body
    = CustomerCrud.FindByIdAndUpdate id' update ->
  id' = CustomerCrud.id_param id /\ isValidObjectId id' = true
  /\ NoDup (map fst update)
  /\ Forall (fun kv =>
               ((fst kv = js "name" \/ fst kv = js "email") /\ exists s, snd kv = VStr s)
               \/ (fst kv = js "roles" /\ exists items, snd kv = VArr items)) update
  /\ Forall (fun kv => Forall (fun k => ~ starts_with_dollar k /\ ~ contains_dot k)
                              (keys_of (snd kv))) update.
Proof.
  unfold CustomerCrud.updateCustomer.
  destruct (isValidObjectId (CustomerCrud.id_param id)) eqn:Hid; cbn [negb];
    [|discriminate].
  intros H.
  assert (Hu : id' = CustomerCrud.id_param id
               /\ update = CustomerCrud.updateData (Customers.sanitizeObject body)).
  { destruct (Customers.sanitizeObject body); try discriminate;
      injection H as <- <-; now split. }
  destruct Hu as [-> ->]. clear H.
  split; [reflexivity|]. split; [exact Hid|].
  unfold CustomerCrud.updateData.
  pose proof (get_clean_sanitized (js "name") body) as Hn.
  pose proof (get_clean_sanitized (js "email") body) as He.
  pose proof (get_clean_sanitized (js "roles") body) as Hr.
  destruct (get_clean (js "name") (Customers.sanitizeObject body)) as [[]|];
    destruct (get_clean (js "email") (Customers.sanitizeObject body)) as [[]|];
    destruct (get_clean (js "roles") (Customers.sanitizeObject body)) as [[]|];
    cbn [app map fst];
    (split; [repeat constructor; simpl; intuition discriminate|]);
    (split;
     repeat first [apply Forall_nil | apply Forall_cons]; cbn [fst snd];
     first [ left; split; [left; reflexivity | eexists; reflexivity]
           | left; split; [right; reflexivity | eexists; reflexivity]
           | right; split; [reflexivity | eexists; reflexivity]
           | now apply Hn | now apply He | now apply Hr ]).
Qed.

Lemma updateCustomer_update_shape_example :
  exists update,
    CustomerCrud.updateCustomer (fun _ => true) (Some (js "65f000000000000000000001"))
      (VObj [(js "$set", VObj [(js "roles", VArr [VStr (js "admin")])]);
             (js "name", VStr (js "Ann"));
             (js "email", VNum (Fin 5));
             (js "totalAmount", VNum (Fin 0));
             (js "roles", VArr [VObj [(js "$ne", VNull); (js "k", VStr (js "v"))]])])
    = CustomerCrud.FindByIdAndUpdate (js "65f000000000000000000001") update
    /\ update = [(js "name", VStr (js "Ann"));
                 (js "roles", VArr [VObj [(js "k", VStr (js "v"))]])]
    /\ NoDup (map fst update).
Proof.
  assert (E : CustomerCrud.updateCustomer (fun _ => true)
                (Some (js "65f000000000000000000001"))
                (VObj [(js "$set", VObj [(js "roles", VArr [VStr (js "admin")])]);
                       (js "name", VStr (js "Ann"));
                       (js "email", VNum (Fin 5));
                       (js "totalAmount", VNum (Fin 0));
                       (js "roles",
                        VArr [VObj [(js "$ne", VNull); (js "k", VStr (js "v"))]])])
              = CustomerCrud.FindByIdAndUpdate (js "65f000000000000000000001")
                  [(js "name", VStr (js "Ann"));
                   (js "roles", VArr [VObj [(js "k", VStr (js "v"))]])])
    by reflexivity.
  eexists. split; [exact E|]. split; [reflexivity|].
  exact (proj1 (proj2 (proj2 (updateCustomer_update_shape _ _ _ _ _ E)))).
Defined.

(** A property the body carries under [__proto__] is read like one of
    its own, and an invalid id is refused before the body is looked at. *)
Lemma updateCustomer_edge_cases :
  CustomerCrud.updateCustomer (fun _ => true) (Some (js "1"))
    (VObj [(js "__proto__", VObj [(js "name", VStr (js "x"))])])
  = CustomerCrud.FindByIdAndUpdate (js "1") [(js "name", VStr (js "x"))]
  /\ CustomerCrud.updateCustomer (fun _ => true) (Some (js "1")) VUndefined
     = CustomerCrud.NextTypeError
  /\ CustomerCrud.updateCustomer (fun _ => false) None VUndefined
     = CustomerCrud.NextNotFound CustomerCrud.InvalidUserId.
Proof. repeat split. Qed.

(* ------------------------------------------------------------------ *)
(** ** [getOrdersCurrentUser]: the page handed back *)

Lemma Qred_add_int (a b : Z) : Qred ((a # 1) + (b # 1)) = (a + b # 1).
Proof.
  transitivity (Qred (a + b # 1)); [|apply Qred_int].
  apply Qred_complete. unfold Qeq. simpl. lia.
Qed.

Lemma num_add_exact (a b : Z) :
  0 <= a + b <= 2 ^ 53 -> num_add (of_Z a) (of_Z b) = of_Z (a + b).
Proof.
  intros H. unfold num_add, of_Z. rewrite Qred_add_int. now apply round64_safe.
Qed.

Lemma slice_index_of_Z (z : Z) (len : nat) :
  0 <= z -> slice_index (of_Z z) len = Z.to_nat (Z.min z (Z.of_nat len)).
Proof.
  intros Hz. unfold slice_index, of_Z. cbn [Qnum Qden].
  rewrite Z.quot_1_r. destruct (Z.ltb_spec z 0); [lia | reflexivity].
Qed.

(** [slice] between two exact indices is the window of the list. *)
Lemma slice_window {A} (l : list A) (s b : Z) :
  0 <= s -> 0 <= b ->
  slice l (of_Z s) (of_Z (s + b)) = firstn (Z.to_nat b) (skipn (Z.to_nat s) l).
Proof.
  intros Hs Hb. unfold slice.
  rewrite !slice_index_of_Z by lia.
  destruct (Z.le_gt_cases (Z.of_nat (List.length l)) s) as [Hout | Hin].
  - rewrite !Z.min_r by lia. rewrite Nat2Z.id, Nat.sub_diag.
    assert (E : skipn (Z.to_nat s) l = []) by (apply skipn_all2; lia).
    rewrite E, firstn_nil. reflexivity.
  - rewrite (Z.min_l s) by lia.
    destruct (Z.le_gt_cases (s + b) (Z.of_nat (List.length l))) as [Hfit | Hover].
    + rewrite Z.min_l by lia. f_equal. lia.
    + rewrite Z.min_r by lia. rewrite Nat2Z.id.
      rewrite <- (length_skipn (Z.to_nat s) l), firstn_all.
      symmetry. apply firstn_all2. rewrite length_skipn. lia.
Qed.

Lemma currentPage_cases (page : RawFieldValue) :
  UserOrders.currentPage page = Infinity false
  \/ exists a, UserOrders.currentPage page = of_Z a /\ 1 <= a.
Proof.
  unfold UserOrders.currentPage.
  destruct (parseInt_cases (UserOrders.text_of page (js "1")))
    as [-> | [(b & ->) | (z & ->)]].
  - right. exists 1. split; [reflexivity | lia].
  - destruct b; [right; exists 1; split; [reflexivity | lia] | now left].
  - right. unfold num_or, of_Z. cbn [Qnum].
    destruct (Z.eqb_spec z 0); [exists 1; split; [reflexivity | lia]|].
    change (Fin 1) with (of_Z 1). fold (of_Z z).
    unfold Math_max. cbn [of_Z]. fold (of_Z 1) (of_Z z). rewrite num_leb_of_Z.
    destruct (Z.leb_spec 1 z); [exists z | exists 1]; split; trivial; lia.
Qed.

Lemma normalizedLimit_range (limit : RawFieldValue) :
  exists b, UserOrders.normalizedLimit limit = of_Z b /\ 1 <= b <= 5.
Proof.
  unfold UserOrders.normalizedLimit. change (Fin 5) with (of_Z 5).
  apply normalizeLimit_between. lia.
Qed.

Section UserOrdersPage.
Context {Order : Type}.
Variable orderNumber : Order -> number.
Variable product_ids : Order -> list jsstring.
Variable escapeRegExp : jsstring -> jsstring.
Variable Product_find : UserOrders.ProductQuery -> list jsstring.

(** X17.  Whenever [getOrdersCurrentUser] answers, the page size is an
    integer [b] between 1 and 5 and the total is the number of orders
    the search kept.  The page number is an integer [a >= 1] (garbage,
    zero and negative pages read as 1) or infinite; an infinite page is
    empty, and while [a * b] stays within 2^53 the page holds exactly
    the kept orders from position [(a - 1) * b] on, at most [b] of them. *)
Theorem getOrdersCurrentUser_window (search page limit : RawFieldValue)
  (orders : list Order) (r : UserOrders.Response Order) :
  UserOrders.getOrdersCurrentUser orderNumber product_ids escapeRegExp Product_find
    search page limit (Some orders) = UserOrders.Respond r ->
  exists b kept,
    UserOrders.r_pageSize r = of_Z b /\ 1 <= b <= 5
    /\ UserOrders.candidates orderNumber product_ids escapeRegExp Product_find
         search orders = Some kept
    /\ UserOrders.r_totalOrders r = of_Z (Z.of_nat (List.length kept))
    /\ ((UserOrders.r_currentPage r = Infinity false /\ UserOrders.r_orders r = [])
        \/ exists a,
             UserOrders.r_currentPage r = of_Z a /\ 1 <= a
             /\ (a * b <= 2 ^ 53 ->
                 UserOrders.r_orders r
                 = firstn (Z.to_nat b) (skipn (Z.to_nat ((a - 1) * b)) kept)
                 /\ (List.length (UserOrders.r_orders r) <= Z.to_nat b)%nat)).
Proof.
  unfold UserOrders.getOrdersCurrentUser. cbv zeta.
  destruct (UserOrders.candidates orderNumber product_ids escapeRegExp Product_find
              search orders) as [kept|]; [|discriminate].
  intros H. injection H as <-.
  cbn [UserOrders.r_pageSize UserOrders.r_totalOrders UserOrders.r_currentPage
       UserOrders.r_orders].
  destruct (normalizedLimit_range limit) as (b & -> & Hb).
  exists b, kept. repeat split; try lia.
  destruct (currentPage_cases page) as [-> | (a & -> & Ha)].
  - left. split; [reflexivity|].
    assert (Hskip : num_mul (num_sub (Infinity false) (Fin 1)) (of_Z b) = Infinity false).
    { destruct b; try lia. reflexivity. }
    rewrite Hskip. unfold slice. cbn [num_add of_Z slice_index].
    now rewrite Nat.sub_diag.
  - right. exists a. split; [reflexivity|]. split; [lia|]. intros Hmax.
    rewrite skip_exact by nia.
    rewrite num_add_exact by nia.
    rewrite slice_window by nia.
    split; [reflexivity | apply firstn_le_length].
Qed.

(** X18.  [getOrdersCurrentUser] fails in two ways only: with
    [NotFoundError] when the user does not exist, whatever the query,
    and with [BadRequestError] when the user exists and the search is a
    string of more than 100 code units.  A search that is absent, empty
    or repeated is not a search: every order of the user is kept. *)
Theorem getOrdersCurrentUser_failures (search page limit : RawFieldValue)
  (user_orders : option (list Order)) :
  (UserOrders.getOrdersCurrentUser orderNumber product_ids escapeRegExp Product_find
     search page limit user_orders = UserOrders.Next UserOrders.UserMissing
   <-> user_orders = None)
  /\ (UserOrders.getOrdersCurrentUser orderNumber product_ids escapeRegExp Product_find
        search page limit user_orders = UserOrders.Next UserOrders.SearchTooLong
      <-> user_orders <> None
          /\ exists s, search = Single s /\ (100 < List.length s)%nat)
  /\ (forall orders,
        (search = Absent \/ search = Single [] \/ exists l, search = Multiple l) ->
        UserOrders.candidates orderNumber product_ids escapeRegExp Product_find
          search orders = Some orders).
Proof.
  unfold UserOrders.getOrdersCurrentUser, UserOrders.candidates.
  split; [|split].
  - destruct user_orders as [orders|]; [|tauto].
    split; [|discriminate].
    destruct search as [|[|c s]|l]; try discriminate.
    destruct (100 <? List.length (c :: s))%nat; discriminate.
  - destruct user_orders as [orders|].
    + destruct search as [|[|c s]|l].
      * split; [discriminate | intros (_ & s & E & _); discriminate].
      * split; [discriminate | intros (_ & s & E & Hl)].
        injection E as <-. simpl in Hl. lia.
      * destruct (Nat.ltb_spec 100 (List.length (c :: s))).
        -- split; [|reflexivity]. intros _. split; [discriminate|]. now exists (c :: s).
        -- split; [discriminate | intros (_ & s' & E & Hl)].
           injection E as <-. lia.
      * split; [discriminate | intros (_ & s & E & _); discriminate].
    + split; [discriminate | intros (Hn & _); congruence].
  - intros orders [-> | [-> | (l & ->)]]; reflexivity.
Qed.
End UserOrdersPage.

Lemma getOrdersCurrentUser_window_example :
  exists r,
    UserOrders.getOrdersCurrentUser of_Z (fun _ : Z => []) escape_meta (fun _ => [])
      Absent (Single (js "2")) (Multiple [js "2"; js "9"]) (Some [11; 12; 13; 14; 15])
    = UserOrders.Respond r
    /\ UserOrders.r_orders r = [13; 14]
    /\ exists b kept,
         UserOrders.r_pageSize r = of_Z b /\ 1 <= b <= 5
         /\ UserOrders.candidates of_Z (fun _ : Z => []) escape_meta (fun _ => [])
              Absent [11; 12; 13; 14; 15] = Some kept
         /\ UserOrders.r_totalOrders r = of_Z (Z.of_nat (List.length kept))
         /\ ((UserOrders.r_currentPage r = Infinity false /\ UserOrders.r_orders r = [])
             \/ exists a,
                  UserOrders.r_currentPage r = of_Z a /\ 1 <= a
                  /\ (a * b <= 2 ^ 53 ->
                      UserOrders.r_orders r
                      = firstn (Z.to_nat b) (skipn (Z.to_nat ((a - 1) * b)) kept)
                      /\ (List.length (UserOrders.r_orders r) <= Z.to_nat b)%nat)).
Proof.
  destruct (UserOrders.getOrdersCurrentUser of_Z (fun _ : Z => []) escape_meta
              (fun _ => []) Absent (Single (js "2")) (Multiple [js "2"; js "9"])
              (Some [11; 12; 13; 14; 15])) as [e|r] eqn:E;
    [vm_compute in E; discriminate E|].
  exists r. split; [reflexivity|]. split.
  - vm_compute in E. injection E as <-. reflexivity.
  - exact (getOrdersCurrentUser_window _ _ _ _ _ _ _ _ _ E).
Defined.

(* ------------------------------------------------------------------ *)
(** ** [normalizePhone] *)

Lemma clean_phone_idem (s : jsstring) : clean_phone (clean_phone s) = clean_phone s.
Proof.
  unfold clean_phone. induction s as [|c r IH]; simpl; trivial.
  destruct (is_digit c || char_is "+" c)%bool eqn:E; simpl; trivial.
  now rewrite E, IH.
Qed.

Lemma clean_phone_chars (s : jsstring) :
  forallb (fun c => is_digit c || char_is "+" c)%bool (clean_phone s) = true.
Proof.
  apply forallb_forall. intros c Hin. unfold clean_phone in Hin.
  now apply filter_In in Hin.
Qed.

(** X19.  [normalizePhone] answers [null] for anything but a string,
    and for a string it looks at the digits and plus signs only: the
    answer is the same for the text stripped of every other character,
    and two libraries that agree on texts of digits and plus signs give
    the same answers on every input. *)
Theorem normalizePhone_digits_only
  (parse parse' : jsstring -> jsstring -> option PhoneNumber)
  (input : value) (country : jsstring) :
  ((forall s, input <> VStr s) -> normalizePhone parse input country = None)
  /\ (forall s, input = VStr s ->
        normalizePhone parse (VStr (clean_phone s)) country
        = normalizePhone parse input country)
  /\ ((forall t, forallb (fun c => is_digit c || char_is "+" c)%bool t = true ->
                 parse t country = parse' t country) ->
      normalizePhone parse input country = normalizePhone parse' input country).
Proof.
  split; [|split].
  - intros H. destruct input; trivial. now destruct (H s).
  - intros s ->. unfold normalizePhone. now rewrite clean_phone_idem.
  - intros H. destruct input; trivial. unfold normalizePhone.
    now rewrite (H _ (clean_phone_chars s)).
Qed.

(* ------------------------------------------------------------------ *)
(** ** [createOrder]: what gets saved *)

Section CreateOrder.
Context {ObjectId : Type}.
Variable id_equals : ObjectId -> value -> bool.
Variable parsePhoneNumberFromString : jsstring -> jsstring -> option PhoneNumber.
Variable sanitizeHtml : value -> jsstring.

Lemma fill_basket_ok (store : list (NewOrders.Product ObjectId)) (items : list value)
  (basket : list (NewOrders.Product ObjectId)) :
  NewOrders.fill_basket id_equals store items = inr basket ->
  Forall2 (fun id product =>
             find (fun p => id_equals (NewOrders.pr_id p) id) store = Some product
             /\ exists price, NewOrders.pr_price product = Some price)
          items basket.
Proof.
  revert basket. induction items as [|id rest IH]; intros basket; simpl.
  - intros H. injection H as <-. constructor.
  - destruct (find (fun p => id_equals (NewOrders.pr_id p) id) store) as [product|] eqn:Ef;
      [|discriminate].
    destruct (NewOrders.pr_price product) as [price|] eqn:Ep; [|discriminate].
    destruct (NewOrders.fill_basket id_equals store rest) as [e|basket']; [discriminate|].
    intros H. injection H as <-. constructor.
    + split; [exact Ef | now exists price].
    + now apply IH.
Qed.

(** X20.  [createOrder] saves an order only when [items] is an array
    whose every element is the id of a product of the store that has a
    price, [total] is a number equal to the sum of those prices (added
    left to right from 0), and the phone normalises to a non-empty
    number.  The saved order keeps [total] and [items] as sent, and its
    payment, email, comment and address are cut to 50, 100, 1000 and
    200 code units. *)
Theorem createOrder_saved (userId : ObjectId)
  (store : list (NewOrders.Product ObjectId)) (body : value)
  (order : NewOrders.Order ObjectId) :
  NewOrders.createOrder id_equals parsePhoneNumberFromString sanitizeHtml
    userId store body = NewOrders.Save order ->
  exists basket total,
    get_default (js "items") body VUndefined = VArr (NewOrders.products order)
    /\ Forall2 (fun id product =>
                  find (fun p => id_equals (NewOrders.pr_id p) id) store = Some product
                  /\ exists price, NewOrders.pr_price product = Some price)
               (NewOrders.products order) basket
    /\ get_default (js "total") body VUndefined = VNum total
    /\ NewOrders.totalAmount order = VNum total
    /\ num_eqb (NewOrders.totalBasket basket) total = true
    /\ normalizePhone parsePhoneNumberFromString
         (get_default (js "phone") body (VStr [])) (js "RU")
       = Some (NewOrders.phone order)
    /\ NewOrders.phone order <> []
    /\ NewOrders.customer order = userId
    /\ (List.length (NewOrders.payment order) <= 50)%nat
    /\ (List.length (NewOrders.email order) <= 100)%nat
    /\ (List.length (NewOrders.comment order) <= 1000)%nat
    /\ (List.length (NewOrders.deliveryAddress order) <= 200)%nat.
Proof.
  unfold NewOrders.createOrder. intros H.
  assert (H' :
    match get_default (js "items") body VUndefined with
    | VArr items =>
        match NewOrders.fill_basket id_equals store items with
        | inl e => NewOrders.Next e
        | inr basket =>
            if match get_default (js "total") body VUndefined with
               | VNum n => num_eqb (NewOrders.totalBasket basket) n
               | _ => false
               end
            then
              match normalizePhone parsePhoneNumberFromString
                      (get_default (js "phone") body (VStr [])) (js "RU") with
              | Some ((_ :: _) as normalizedPhone) =>
                  NewOrders.Save
                    {| NewOrders.totalAmount := get_default (js "total") body VUndefined;
                       NewOrders.products := items;
                       NewOrders.payment :=
                         NewOrders.sanitizeAndTrim sanitizeHtml
                           (get_default (js "payment") body (VStr [])) 50;
                       NewOrders.phone := normalizedPhone;
                       NewOrders.email :=
                         NewOrders.sanitizeAndTrim sanitizeHtml
                           (get_default (js "email") body (VStr [])) 100;
                       NewOrders.comment :=
                         NewOrders.sanitizeAndTrim sanitizeHtml
                           (get_default (js "comment") body (VStr [])) 1000;
                       NewOrders.customer := userId;
                       NewOrders.deliveryAddress :=
                         NewOrders.sanitizeAndTrim sanitizeHtml
                           (get_default (js "address") body (VStr [])) 200 |}
              | _ => NewOrders.Next NewOrders.BadPhone
              end
            else NewOrders.Next NewOrders.WrongTotal
        end
    | _ => NewOrders.Next NewOrders.ItemsNotArray
    end = NewOrders.Save order).
  { destruct body; try discriminate; exact H. }
  clear H.
  destruct (get_default (js "items") body VUndefined) as [ | | | | |items|];
    try discriminate.
  destruct (NewOrders.fill_basket id_equals store items) as [e|basket] eqn:Eb;
    [discriminate|].
  destruct (get_default (js "total") body VUndefined) as [ | | |total| | |];
    try discriminate.
  destruct (num_eqb (NewOrders.totalBasket basket) total) eqn:Et; [|discriminate].
  destruct (normalizePhone parsePhoneNumberFromString
              (get_default (js "phone") body (VStr [])) (js "RU"))
    as [[|c s]|]; try discriminate.
  injection H' as <-. exists basket, total.
  cbn [NewOrders.totalAmount NewOrders.products NewOrders.payment NewOrders.phone
       NewOrders.email NewOrders.comment NewOrders.customer
       NewOrders.deliveryAddress].
  repeat split; trivial; try discriminate;
    try (unfold NewOrders.sanitizeAndTrim; apply firstn_le_length).
  now apply fill_basket_ok.
Qed.
End CreateOrder.

Lemma createOrder_saved_example :
  exists order,
    NewOrders.createOrder
      (fun (id : Z) v => match v with VNum (Fin q) => Qeq_bool q (inject_Z id) | _ => false end)
      (fun s _ => Some {| pn_isValid := true; pn_number := s |})
      (fun v => match v with VStr s => s | _ => [] end)
      7%Z
      [ {| NewOrders.pr_id := 1%Z; NewOrders.pr_price := Some (of_Z 100) |};
        {| NewOrders.pr_id := 2%Z; NewOrders.pr_price := Some (of_Z 250) |};
        {| NewOrders.pr_id := 3%Z; NewOrders.pr_price := None |} ]
      (VObj [ (js "items", VArr [VNum (of_Z 2); VNum (of_Z 1)]);
              (js "total", VNum (of_Z 350));
              (js "phone", VStr (js "+7 (900) 000-00-00"));
              (js "comment", VStr (js "call first")) ])
    = NewOrders.Save order
    /\ NewOrders.phone order = js "+79000000000"
    /\ NewOrders.comment order = js "call first"
    /\ exists (basket : list (NewOrders.Product Z)) total,
         NewOrders.products order = [VNum (of_Z 2); VNum (of_Z 1)]
         /\ List.length basket = 2%nat
         /\ NewOrders.totalAmount order = VNum total
         /\ num_eqb (NewOrders.totalBasket basket) total = true
         /\ (List.length (NewOrders.payment order) <= 50)%nat
         /\ (List.length (NewOrders.deliveryAddress order) <= 200)%nat.
Proof.
  destruct (NewOrders.createOrder
      (fun (id : Z) v => match v with VNum (Fin q) => Qeq_bool q (inject_Z id) | _ => false end)
      (fun s _ => Some {| pn_isValid := true; pn_number := s |})
      (fun v => match v with VStr s => s | _ => [] end)
      7%Z
      [ {| NewOrders.pr_id := 1%Z; NewOrders.pr_price := Some (of_Z 100) |};
        {| NewOrders.pr_id := 2%Z; NewOrders.pr_price := Some (of_Z 250) |};
        {| NewOrders.pr_id := 3%Z; NewOrders.pr_price := None |} ]
      (VObj [ (js "items", VArr [VNum (of_Z 2); VNum (of_Z 1)]);
              (js "total", VNum (of_Z 350));
              (js "phone", VStr (js "+7 (900) 000-00-00"));
              (js "comment", VStr (js "call first")) ]))
    as [e| |order] eqn:E;
    [vm_compute in E; discriminate E | vm_compute in E; discriminate E |].
  exists order. split; [reflexivity|].
  destruct (createOrder_saved _ _ _ _ _ _ _ E)
    as (basket & total & Hitems & Hbasket & _ & Htotal & Hsum & _ & _ & _ & Hpay & _ & _ & Haddr).
  assert (Hp : NewOrders.products order = [VNum (of_Z 2); VNum (of_Z 1)]).
  { vm_compute in Hitems. now injection Hitems. }
  split; [vm_compute in E; injection E as <-; reflexivity|].
  split; [vm_compute in E; injection E as <-; reflexivity|].
  exists basket, total. split; [exact Hp|]. split.
  - apply Forall2_length in Hbasket. now rewrite <- Hbasket, Hp.
  - now repeat split.
Defined.

(* ------------------------------------------------------------------ *)
(** ** The upload controller *)

Lemma existsb_jsstring_eqb (x : jsstring) (l : list jsstring) :
  existsb (jsstring_eqb x) l = true <-> In x l.
Proof.
  rewrite existsb_exists. unfold jsstring_eqb. split.
  - intros (y & Hin & H). now destruct (list_eq_dec N.eq_dec x y) as [->|]. 
  - intros Hin. exists x. split; trivial. now destruct (list_eq_dec N.eq_dec x x).
Qed.

Lemma to_upper_idem (c : char) : Upload.to_upper (Upload.to_upper c) = Upload.to_upper c.
Proof.
  unfold Upload.to_upper. destruct (is_lower c) eqn:E; [|now rewrite E].
  assert (H : is_lower (c - 32)%N = false); [|now rewrite H].
  revert E. unfold is_lower, char_in, ch. cbn.
  rewrite andb_true_iff, andb_false_iff, !N.leb_le, !N.leb_gt. lia.
Qed.

Lemma unsafe_char_to_upper (c : char) :
  Upload.unsafe_char (Upload.to_upper c) = Upload.unsafe_char c.
Proof.
  unfold Upload.to_upper. destruct (is_lower c) eqn:E; [|reflexivity].
  revert E. unfold Upload.unsafe_char, is_lower, char_in, char_is, ch. cbn.
  rewrite andb_true_iff, !N.leb_le. intros [H1 H2].
  repeat match goal with
         | |- context [N.eqb ?a ?b] => destruct (N.eqb_spec a b); try lia
         end;
    reflexivity.
Qed.

Lemma existsb_unsafe_upper (f : jsstring) :
  existsb Upload.unsafe_char (map Upload.to_upper f) = existsb Upload.unsafe_char f.
Proof.
  induction f as [|c r IH]; cbn [map existsb]; trivial.
  now rewrite unsafe_char_to_upper, IH.
Qed.

(** X21.  [isFilenameSafe] does not look at the case of ASCII letters:
    two names that are equal once a-z is replaced by A-Z are both safe
    or both unsafe; in particular a name is as safe as its upper-case
    form. *)
Theorem isFilenameSafe_ignores_case (f g : jsstring) :
  (map Upload.to_upper f = map Upload.to_upper g ->
   Upload.isFilenameSafe f = Upload.isFilenameSafe g)
  /\ Upload.isFilenameSafe (map Upload.to_upper f) = Upload.isFilenameSafe f.
Proof.
  assert (H : forall a b, map Upload.to_upper a = map Upload.to_upper b ->
                          Upload.isFilenameSafe a = Upload.isFilenameSafe b).
  { intros a b E. unfold Upload.isFilenameSafe, Upload.unsafeChars_test.
    rewrite <- (existsb_unsafe_upper a), <- (existsb_unsafe_upper b), E.
    reflexivity. }
  split; [apply H|]. apply H. rewrite map_map. apply map_ext. apply to_upper_idem.
Qed.

(** X22.  [uploadFile] goes on to read the image exactly when there is
    a file, its MIME type is one of the five allowed, its original name
    holds none of the nine forbidden characters (so no slash and no
    backslash) and is not a reserved device name in any letter case,
    and its size is from 2048 to 10485760 bytes, both ends included. *)
Theorem uploadFile_accepts (file : option Upload.File) (f : Upload.File) :
  Upload.uploadFile file = Upload.ReadImage f
  <-> file = Some f
      /\ In (Upload.mimetype f) Upload.ALLOWED_MIME_TYPES
      /\ (forall c, In c (Upload.originalname f) ->
                    ~ In c (js "<>:" ++ [34%N] ++ js "/\|?*"))
      /\ ~ In (map Upload.to_upper (Upload.originalname f)) Upload.reserved_names
      /\ 2048 <= Upload.size f <= 10485760.
Proof.
  assert (Hclass : forall c, Upload.unsafe_char c = true
                             <-> In c (js "<>:" ++ [34%N] ++ js "/\|?*")).
  { intros c. unfold Upload.unsafe_char, char_is, ch. cbn.
    rewrite !orb_true_iff, !N.eqb_eq. intuition (subst; auto). }
  assert (Hsafe : forall name, Upload.isFilenameSafe name = true
            <-> (forall c, In c name -> ~ In c (js "<>:" ++ [34%N] ++ js "/\|?*"))
                /\ ~ In (map Upload.to_upper name) Upload.reserved_names).
  { intros name. unfold Upload.isFilenameSafe, Upload.unsafeChars_test.
    rewrite negb_true_iff, orb_false_iff. rewrite <- !not_true_iff_false.
    rewrite existsb_jsstring_eqb, existsb_exists. split.
    - intros [H1 H2]. split; trivial. intros c Hin Hc. apply H1. exists c.
      split; trivial. now apply Hclass.
    - intros [H1 H2]. split; trivial. intros (c & Hin & Hc).
      apply (H1 c Hin). now apply Hclass. }
  unfold Upload.uploadFile. split.
  - destruct file as [f0|]; [|discriminate].
    destruct (existsb (jsstring_eqb (Upload.mimetype f0)) Upload.ALLOWED_MIME_TYPES) eqn:Em;
      [|discriminate].
    destruct (Upload.isFilenameSafe (Upload.originalname f0)) eqn:Es; [|discriminate].
    cbn [negb].
    destruct (Z.ltb_spec (Upload.size f0) (2 * 1024)); [discriminate|].
    destruct (Z.ltb_spec (10 * 1024 * 1024) (Upload.size f0)); [discriminate|].
    intros Hf. injection Hf as <-. apply existsb_jsstring_eqb in Em.
    apply Hsafe in Es. destruct Es. repeat split; trivial; lia.
  - intros (-> & Hm & Hc & Hr & Hlo & Hhi).
    apply existsb_jsstring_eqb in Hm. rewrite Hm.
    rewrite (proj2 (Hsafe _) (conj Hc Hr)). cbn [negb].
    destruct (Z.ltb_spec (Upload.size f) (2 * 1024)); [lia|].
    destruct (Z.ltb_spec (10 * 1024 * 1024) (Upload.size f)); [lia|].
    reflexivity.
Qed.
